(** * sunmap: the street-exposure and shadow geometry of [script.js]

    A shallow embedding of [drawStreets], [drawBuildings] and
    [updateScene], and the properties of the sun-exposure engine proved on
    it.

    Numbers.  A JavaScript Number is modelled by [num]: a real number, or
    one of the three non-finite values [+Infinity], [-Infinity], [NaN].
    Arithmetic on finite values is exact (rounding to binary64 is not
    modelled), the non-finite cases follow ECMAScript.  There is one zero,
    standing for [+0]: every zero that [script.js] divides by or hands to
    [Math.atan2] is a difference [x - x], a sum of squares or its square
    root, all of which are [+0] in IEEE arithmetic.  The lines that build a
    quad are given a second time in binary64 itself ([B64]), for the input
    on which underflow decides.

    State.  The module-level variables and the Leaflet layer groups they
    refer to make up [State]; a function of the script is a state
    transformer that completes normally or throws ([JS]).  Leaflet and
    SunCalc are not part of the script: [L.layerGroup], [clearLayers],
    [L.polygon(...).addTo] act on the list of layer groups and accept any
    coordinates, and [SunCalc.getPosition] and the clock come in through
    [Env]. *)

From Stdlib Require Import Reals Lra Lia ZArith Ascii String.
From Stdlib Require Floats.
From stdpp Require Import gmap strings list.

(** ** JavaScript numbers *)

Module Num.

Inductive num : Type :=
  | Fin (r : R)
  | PInf
  | NInf
  | NaN.

Inductive sgn : Type := Neg | Zero | Pos.

Definition Rsgn (r : R) : sgn :=
  if Rlt_dec r 0 then Neg else if Rlt_dec 0 r then Pos else Zero.

Definition sgn_mul (a b : sgn) : sgn :=
  match a, b with
  | Zero, _ | _, Zero => Zero
  | Pos, Pos | Neg, Neg => Pos
  | _, _ => Neg
  end.

(** The infinity of a given sign; an undetermined sign gives [NaN]. *)
Definition inf_of (s : sgn) : num :=
  match s with Pos => PInf | Neg => NInf | Zero => NaN end.

Definition sgn_of (a : num) : sgn :=
  match a with
  | Fin r => Rsgn r
  | PInf => Pos
  | NInf => Neg
  | NaN => Zero
  end.

(** [-a] *)
Definition neg (a : num) : num :=
  match a with
  | Fin r => Fin (- r)
  | PInf => NInf
  | NInf => PInf
  | NaN => NaN
  end.

(** [a + b] *)
Definition add (a b : num) : num :=
  match a, b with
  | NaN, _ | _, NaN => NaN
  | Fin x, Fin y => Fin (x + y)
  | PInf, NInf | NInf, PInf => NaN
  | PInf, _ | _, PInf => PInf
  | NInf, _ | _, NInf => NInf
  end.

(** [a - b] *)
Definition sub (a b : num) : num := add a (neg b).

(** [a * b] *)
Definition mul (a b : num) : num :=
  match a, b with
  | NaN, _ | _, NaN => NaN
  | Fin x, Fin y => Fin (x * y)
  | _, _ => inf_of (sgn_mul (sgn_of a) (sgn_of b))
  end.

(** [a / b]; a zero divisor is [+0]. *)
Definition div (a b : num) : num :=
  match a, b with
  | NaN, _ | _, NaN => NaN
  | Fin x, Fin y => if Req_dec_T y 0 then inf_of (Rsgn x) else Fin (x / y)
  | Fin _, _ => Fin 0
  | _, Fin y => inf_of (sgn_mul (sgn_of a) (if Req_dec_T y 0 then Pos else Rsgn y))
  | _, _ => NaN
  end.

(** [a < b] and [a <= b]; both are false when an operand is [NaN]. *)
Definition lt (a b : num) : bool :=
  match a, b with
  | NaN, _ | _, NaN => false
  | Fin x, Fin y => if Rlt_dec x y then true else false
  | NInf, (Fin _ | PInf) | Fin _, PInf => true
  | _, _ => false
  end.

Definition le (a b : num) : bool :=
  match a, b with
  | NaN, _ | _, NaN => false
  | Fin x, Fin y => if Rle_dec x y then true else false
  | NInf, _ | _, PInf => true
  | _, _ => false
  end.

(** Round toward zero. *)
Definition Rtrunc (x : R) : R :=
  if Rle_dec 0 x then IZR (Int_part x) else - IZR (Int_part (- x)).

(** [n % d]: the remainder has the sign of the dividend [n]. *)
Definition rem (n d : num) : num :=
  match n, d with
  | NaN, _ | _, NaN => NaN
  | (PInf | NInf), _ => NaN
  | Fin _, (PInf | NInf) => n
  | Fin x, Fin y => if Req_dec_T y 0 then NaN else Fin (x - y * Rtrunc (x / y))
  end.

(** [Math.abs], [Math.min], [Math.sqrt] *)
Definition abs (a : num) : num :=
  match a with
  | Fin r => Fin (Rabs r)
  | PInf | NInf => PInf
  | NaN => NaN
  end.

Definition min (a b : num) : num :=
  match a, b with
  | NaN, _ | _, NaN => NaN
  | _, _ => if lt b a then b else a
  end.

Definition sqrt (a : num) : num :=
  match a with
  | Fin r => if Rlt_dec r 0 then NaN else Fin (R_sqrt.sqrt r)
  | PInf => PInf
  | NInf | NaN => NaN
  end.

(** [Math.PI] *)
Definition PI : num := Fin Rtrigo1.PI.

(** [Math.atan2(y, x)]: the angle of the point [(x, y)], in [(-PI, PI]]. *)
Definition atan2 (y x : num) : num :=
  match y, x with
  | NaN, _ | _, NaN => NaN
  | Fin b, Fin a =>
      if Rlt_dec 0 a then Fin (atan (b / a))
      else if Rlt_dec a 0 then
        if Rlt_dec b 0 then Fin (atan (b / a) - Rtrigo1.PI)
        else Fin (atan (b / a) + Rtrigo1.PI)
      else if Rlt_dec 0 b then Fin (Rtrigo1.PI / 2)
      else if Rlt_dec b 0 then Fin (- (Rtrigo1.PI / 2))
      else Fin 0
  | Fin b, PInf => Fin 0
  | Fin b, NInf => if Rlt_dec b 0 then Fin (- Rtrigo1.PI) else Fin Rtrigo1.PI
  | PInf, Fin _ => Fin (Rtrigo1.PI / 2)
  | NInf, Fin _ => Fin (- (Rtrigo1.PI / 2))
  | PInf, PInf => Fin (Rtrigo1.PI / 4)
  | PInf, NInf => Fin (3 * Rtrigo1.PI / 4)
  | NInf, PInf => Fin (- (Rtrigo1.PI / 4))
  | NInf, NInf => Fin (- (3 * Rtrigo1.PI / 4))
  end.

(** [Math.tan], [Math.sin], [Math.cos].  At the real poles of the tangent,
    which no binary64 value hits, [tan] has the value of the Standard
    Library's [Rtrigo1.tan]. *)
Definition tan (a : num) : num :=
  match a with Fin r => Fin (Rtrigo1.tan r) | _ => NaN end.

Definition sin (a : num) : num :=
  match a with Fin r => Fin (Rtrigo_def.sin r) | _ => NaN end.

Definition cos (a : num) : num :=
  match a with Fin r => Fin (Rtrigo_def.cos r) | _ => NaN end.

End Num.

Export Num(num, Fin, PInf, NInf, NaN).

Declare Scope js_scope.
Delimit Scope js_scope with js.
Bind Scope js_scope with num.
Notation "a + b" := (Num.add a b) : js_scope.
Notation "a - b" := (Num.sub a b) : js_scope.
Notation "a * b" := (Num.mul a b) : js_scope.
Notation "a / b" := (Num.div a b) : js_scope.
Notation "- a" := (Num.neg a) : js_scope.
Notation "a 'mod' b" := (Num.rem a b) : js_scope.
Notation "a <? b" := (Num.lt a b) : js_scope.
Notation "a <=? b" := (Num.le a b) : js_scope.

(** ** Parsing numbers out of tag values: [parseFloat] and [parseInt]

    Strings are byte strings (UTF-8). *)

Module Parse.

Local Open Scope N_scope.

(** One-byte white space and line terminators: TAB, LF, VT, FF, CR, SP. *)
Definition ws1 (a : N) : bool :=
  (a =? 9) || (a =? 10) || (a =? 11) || (a =? 12) || (a =? 13) || (a =? 32).

(** U+00A0 in UTF-8. *)
Definition ws2 (a b : N) : bool := (a =? 194) && (b =? 160).

(** The three-byte ones: U+1680, U+2000..U+200A, U+2028, U+2029, U+202F,
    U+205F, U+3000 and U+FEFF. *)
Definition ws3 (a b c : N) : bool :=
  ((a =? 225) && (b =? 154) && (c =? 128))
  || ((a =? 226) && (b =? 128)
        && (((128 <=? c) && (c <=? 138)) || (c =? 168) || (c =? 169) || (c =? 175)))
  || ((a =? 226) && (b =? 129) && (c =? 159))
  || ((a =? 227) && (b =? 128) && (c =? 128))
  || ((a =? 239) && (b =? 187) && (c =? 191)).

(** Drop leading white space (the first step of both parsers). *)
Fixpoint trimStart (s : string) : string :=
  match s with
  | String c1 r1 =>
      if ws1 (N_of_ascii c1) then trimStart r1
      else match r1 with
           | String c2 r2 =>
               if ws2 (N_of_ascii c1) (N_of_ascii c2) then trimStart r2
               else match r2 with
                    | String c3 r3 =>
                        if ws3 (N_of_ascii c1) (N_of_ascii c2) (N_of_ascii c3)
                        then trimStart r3 else s
                    | EmptyString => s
                    end
           | EmptyString => s
           end
  | EmptyString => s
  end.

(** The value of a digit in the given radix (10 or 16). *)
Definition digitVal (radix : Z) (c : ascii) : option Z :=
  let a := N_of_ascii c in
  if (48 <=? a) && (a <=? 57) then Some (Z.of_N (a - 48))
  else if (radix =? 16)%Z && (97 <=? a) && (a <=? 102) then Some (Z.of_N (a - 87))
  else if (radix =? 16)%Z && (65 <=? a) && (a <=? 70) then Some (Z.of_N (a - 55))
  else None.

(** Read the longest run of digits: the number read so far, how many
    digits were read, and the rest of the string. *)
Fixpoint digits (radix : Z) (s : string) (acc : Z) (cnt : nat) : Z * nat * string :=
  match s with
  | String c r =>
      match digitVal radix c with
      | Some d => digits radix r (radix * acc + d)%Z (S cnt)
      | None => (acc, cnt, s)
      end
  | EmptyString => (acc, cnt, s)
  end.

(** An optional sign: [true] for [-]. *)
Definition sign (s : string) : bool * string :=
  match s with
  | String "-" r => (true, r)
  | String "+" r => (false, r)
  | _ => (false, s)
  end.

Definition startsWith (p s : string) : bool :=
  String.prefix p s.

(** What a parser read: [m * 10^e] with a sign, an infinity, or nothing. *)
Inductive numeral : Type :=
  | Dec (negative : bool) (m : Z) (e : Z)
  | Inf (negative : bool)
  | NoNumber.

(** The exponent part [e], [e+] or [e-] followed by digits; an incomplete
    one is not part of the number. *)
Definition exponent (s : string) : Z :=
  match s with
  | String c r =>
      if (N_of_ascii c =? 101) || (N_of_ascii c =? 69) then
        let '(neg, r') := sign r in
        let '(ev, ne, _) := digits 10 r' 0%Z 0%nat in
        match ne with
        | O => 0%Z
        | S _ => if neg then (- ev)%Z else ev
        end
      else 0%Z
  | EmptyString => 0%Z
  end.

(** The longest prefix of the trimmed string that is a decimal literal. *)
Definition parseFloatLit (s : string) : numeral :=
  let '(neg, s2) := sign (trimStart s) in
  if startsWith "Infinity" s2 then Inf neg
  else
    let '(ip, ni, s3) := digits 10 s2 0%Z 0%nat in
    let '(m, nf, s4) :=
      match s3 with
      | String "." r => digits 10 r ip 0%nat
      | _ => (ip, 0%nat, s3)
      end in
    match (ni + nf)%nat with
    | O => NoNumber
    | S _ => Dec neg m (exponent s4 - Z.of_nat nf)%Z
    end.

(** [parseInt] without a radix: decimal, or hexadecimal after [0x]. *)
Definition parseIntLit (s : string) : numeral :=
  let '(neg, s2) := sign (trimStart s) in
  let '(radix, s3) :=
    match s2 with
    | String "0" (String "x" r) | String "0" (String "X" r) => (16%Z, r)
    | _ => (10%Z, s2)
    end in
  let '(v, n, _) := digits radix s3 0%Z 0%nat in
  match n with
  | O => NoNumber
  | S _ => Dec neg v 0
  end.

Definition num_of_numeral (x : numeral) : num :=
  match x with
  | Dec neg m e =>
      let v := (IZR m * powerRZ 10 e)%R in
      Fin (if neg then (- v)%R else v)
  | Inf neg => if neg then NInf else PInf
  | NoNumber => NaN
  end.

Definition parseFloat (s : string) : num := num_of_numeral (parseFloatLit s).
Definition parseInt (s : string) : num := num_of_numeral (parseIntLit s).

End Parse.

Export Parse(parseFloat, parseInt).

(** ** Data: map features, polygons and the module-level state *)

(** An entry [{lat, lon}] of a feature's [geometry]. *)
Record Pt : Type := { lat : num; lon : num }.

(** An element of the Overpass answer: [tags] and [geometry] may be
    missing ([undefined]). *)
Record Element : Type := {
  tags : option (gmap string string);
  geometry : option (list Pt)
}.

(** The style object handed to [L.polygon]. *)
Record PathOptions : Type := {
  color : string;
  fillColor : string;
  fillOpacity : num;
  weight : num
}.

(** [L.polygon(latlngs, options)]; a corner is the array [[lat, lon]]. *)
Record Polygon : Type := {
  latlngs : list (num * num);
  options : PathOptions
}.

(** The locals that one run of the callback of [drawBuildings] computes
    after the height estimate. *)
Record Shadow : Type := {
  height : num;
  shadowLen : num;
  angle : num;
  dx : num;
  dy : num
}.

(** The globals of the script and the Leaflet objects they refer to.
    [layers] holds every layer group made by [L.layerGroup()], in order of
    creation; each one was added to [map], so the polygons on display are
    those of all groups.  A layer variable is [None] while [undefined],
    else the index of its group.  [shadows] is a ghost record of the
    shadow locals computed so far (the script itself drops them). *)
Record State : Type := {
  layers : list (list Polygon);
  streetData : list Element;
  buildingData : list Element;
  streetLayer : option nat;
  buildingLayer : option nat;
  shadowLayer : option nat;
  shadows : list Shadow
}.

Definition set_layers (f : list (list Polygon) → list (list Polygon)) (s : State) : State :=
  {| layers := f (layers s); streetData := streetData s;
     buildingData := buildingData s; streetLayer := streetLayer s;
     buildingLayer := buildingLayer s; shadowLayer := shadowLayer s;
     shadows := shadows s |}.

Definition set_streetLayer (g : nat) (s : State) : State :=
  {| layers := layers s; streetData := streetData s;
     buildingData := buildingData s; streetLayer := Some g;
     buildingLayer := buildingLayer s; shadowLayer := shadowLayer s;
     shadows := shadows s |}.

Definition set_buildingLayer (g : nat) (s : State) : State :=
  {| layers := layers s; streetData := streetData s;
     buildingData := buildingData s; streetLayer := streetLayer s;
     buildingLayer := Some g; shadowLayer := shadowLayer s;
     shadows := shadows s |}.

Definition set_shadowLayer (g : nat) (s : State) : State :=
  {| layers := layers s; streetData := streetData s;
     buildingData := buildingData s; streetLayer := streetLayer s;
     buildingLayer := buildingLayer s; shadowLayer := Some g;
     shadows := shadows s |}.

Definition log_shadow (v : Shadow) (s : State) : State :=
  {| layers := layers s; streetData := streetData s;
     buildingData := buildingData s; streetLayer := streetLayer s;
     buildingLayer := buildingLayer s; shadowLayer := shadowLayer s;
     shadows := shadows s ++ [v] |}.

(** The state when the script is loaded: [let map, streetData = [],
    buildingData = []; let streetLayer, buildingLayer, shadowLayer;]. *)
Definition initial : State :=
  {| layers := []; streetData := []; buildingData := [];
     streetLayer := None; buildingLayer := None; shadowLayer := None;
     shadows := [] |}.

(** Every polygon on the map. *)
Definition scene (s : State) : list Polygon := concat (layers s).

(** The polygons of the group a layer variable refers to. *)
Definition layerOf (g : option nat) (s : State) : list Polygon :=
  match g with
  | Some i => default [] (layers s !! i)
  | None => []
  end.

(** ** Statements: state passing with exceptions *)

Inductive completion (A : Type) : Type :=
  | Normal (a : A)
  | Throw.
Arguments Normal {A} a.
Arguments Throw {A}.

Definition JS (A : Type) : Type := State → completion A * State.

#[global] Instance JS_ret : MRet JS := λ A a s, (Normal a, s).

#[global] Instance JS_bind : MBind JS := λ A B f m s,
  match m s with
  | (Normal a, s') => f a s'
  | (Throw, s') => (Throw, s')
  end.

Definition throw {A : Type} : JS A := λ s, (Throw, s).
Definition gets {A : Type} (f : State → A) : JS A := λ s, (Normal (f s), s).
Definition modify (f : State → State) : JS unit := λ s, (Normal tt, f s).

(** [l.forEach(f)] *)
Fixpoint forEach {A : Type} (f : A → JS unit) (l : list A) : JS unit :=
  match l with
  | [] => mret tt
  | x :: l' => f x ;; forEach f l'
  end.

(** ** The Leaflet calls the script makes *)

(** [g.clearLayers()] *)
Definition clearLayers (g : nat) : JS unit :=
  modify (set_layers (λ ls, <[g := []]> ls)).

(** [L.layerGroup().addTo(map)]: a new, empty group, shown on the map. *)
Definition layerGroup_addTo_map : JS nat :=
  g ← gets (λ s, length (layers s));
  modify (set_layers (λ ls, ls ++ [[]]));;
  mret g.

(** [L.polygon(latlngs, options).addTo(g)], [g] being the value of a layer
    variable. *)
Definition polygon_addTo (p : Polygon) (g : option nat) : JS unit :=
  match g with
  | Some i => modify (set_layers (λ ls, alter (λ ps, ps ++ [p]) i ls))
  | None => throw
  end.

(** ** The sun: [SunCalc.getPosition] and the clock are given from outside *)

(** A [Date], as the fields handed to [Date.UTC]. *)
Record Date : Type := {
  fullYear : num;
  month : num;
  date : num;
  hours : num;
  minutes : num;
  seconds : num
}.

Record SunPos : Type := { azimuth : num; altitude : num }.

Record Env : Type := {
  (** [new Date()] *)
  today : Date;
  (** [SunCalc.getPosition(date, lat, lng)] *)
  getPosition : Date → num → num → SunPos
}.

Definition getDateForHour (env : Env) (hour : num) : Date :=
  let d := today env in
  {| fullYear := fullYear d; month := month d; date := date d;
     hours := hour; minutes := Fin 0; seconds := Fin 0 |}.

(** ** [drawStreets] *)

(** [(sunPos.azimuth * 180 / Math.PI + 180) % 360] *)
Definition azimuthDegOf (sunPos : SunPos) : num :=
  ((azimuth sunPos * Fin 180 / Num.PI + Fin 180) mod Fin 360)%js.

(** [sunPos.altitude * 180 / Math.PI] *)
Definition altDegOf (sunPos : SunPos) : num :=
  (altitude sunPos * Fin 180 / Num.PI)%js.

(** The local [angle] of the pair [p1], [p2]: its bearing in degrees. *)
Definition bearing (p1 p2 : num * num) : num :=
  let dx := (p2.2 - p1.2)%js in
  let dy := (p2.1 - p1.1)%js in
  ((Num.atan2 dx dy * Fin 180 / Num.PI + Fin 360) mod Fin 360)%js.

(** The local [minDiff]. *)
Definition minDiff (azimuthDeg : num) (p1 p2 : num * num) : num :=
  let angle := bearing p1 p2 in
  let diff := Num.abs (angle - azimuthDeg)%js in
  Num.min diff (Fin 360 - diff)%js.

(** The local [quad] of a pair that passed the test. *)
Definition litQuad (roadWidth : num) (p1 p2 : num * num) : list (num * num) :=
  let dx := (p2.2 - p1.2)%js in
  let dy := (p2.1 - p1.1)%js in
  let segLen := Num.sqrt (dx * dx + dy * dy)%js in
  let offsetLat := ((roadWidth / Fin 110540) * (dx / segLen))%js in
  let offsetLon := ((roadWidth / Fin 111320) * (- dy / segLen))%js in
  [ ((p1.1 + offsetLat)%js, (p1.2 + offsetLon)%js);
    ((p2.1 + offsetLat)%js, (p2.2 + offsetLon)%js);
    ((p2.1 - offsetLat)%js, (p2.2 - offsetLon)%js);
    ((p1.1 - offsetLat)%js, (p1.2 - offsetLon)%js) ].

Definition gold : PathOptions :=
  {| color := "none"; fillColor := "gold"; fillOpacity := Fin 0.7; weight := Fin 0 |}.

(** The body of the [for] loop. *)
Definition streetPair (azimuthDeg roadWidth : num) (p1 p2 : num * num) : JS unit :=
  if (minDiff azimuthDeg p1 p2 <? Fin 20)%js then
    g ← gets streetLayer;
    polygon_addTo {| latlngs := litQuad roadWidth p1 p2; options := gold |} g
  else mret tt.

(** [['primary','secondary','tertiary','residential'].includes(x)] *)
Definition mainRoads : list string :=
  ["primary"; "secondary"; "tertiary"; "residential"].

Definition includes (l : list string) (x : option string) : bool :=
  match x with
  | Some v => bool_decide (v ∈ l)
  | None => false
  end.

(** The callback of [streetData.forEach].  Reading [way.tags.highway]
    throws when [way.tags] is missing. *)
Definition streetWay (azimuthDeg roadWidth : num) (way : Element) : JS unit :=
  match geometry way with
  | Some geom =>
      match tags way with
      | Some t =>
          if negb (includes mainRoads (t !! "highway")) then mret tt
          else
            let latlngs := (λ pt, (lat pt, lon pt)) <$> geom in
            if (length latlngs <? 2)%nat then mret tt
            else
              forEach (λ i,
                 match latlngs !! i, latlngs !! S i with
                 | Some p1, Some p2 => streetPair azimuthDeg roadWidth p1 p2
                 | _, _ => throw
                 end) (seq 0 (length latlngs - 1))
      | None => throw
      end
  | None => mret tt
  end.

Definition drawStreets (env : Env) (lat lon hour : num) : JS unit :=
  old ← gets streetLayer;
  match old with Some g => clearLayers g | None => mret tt end;;
  g ← layerGroup_addTo_map;
  modify (set_streetLayer g);;
  let now := getDateForHour env hour in
  let sunPos := getPosition env now lat lon in
  let azimuthDeg := azimuthDegOf sunPos in
  let altDeg := altDegOf sunPos in
  if (altDeg <=? Fin 0)%js then mret tt
  else
    let roadWidth := Fin 6 in
    ways ← gets streetData;
    forEach (streetWay azimuthDeg roadWidth) ways.

(** ** [drawBuildings] *)

Definition grey : PathOptions :=
  {| color := "#555"; fillColor := "#999"; fillOpacity := Fin 0.6; weight := Fin 1 |}.

(** [b.tags && b.tags[k]], when truthy: the tag's value.  A missing
    [tags], a missing key and the empty string are all falsy. *)
Definition truthyTag (b : Element) (k : string) : option string :=
  t ← tags b;
  v ← t !! k;
  if String.eqb v "" then None else Some v.

(** The height estimate: the value of the local [height] after the two
    [if]s. *)
Definition estimateHeight (b : Element) : num :=
  let height := Fin 10 in
  match truthyTag b "building:height" with
  | Some v => parseFloat v
  | None =>
      match truthyTag b "building:levels" with
      | Some v => (parseInt v * Fin 3)%js
      | None => height
      end
  end.

(** [height / Math.tan(alt)] *)
Definition shadowLength (height alt : num) : num :=
  (height / Num.tan alt)%js.

(** The locals from [height] to [dy]. *)
Definition shadowOf (azimuth alt : num) (b : Element) : Shadow :=
  let height := estimateHeight b in
  let shadowLen := shadowLength height alt in
  let angle := (azimuth + Num.PI)%js in
  let dx := ((shadowLen / Fin 111320) * Num.sin angle)%js in
  let dy := ((shadowLen / Fin 110540) * Num.cos angle)%js in
  {| height := height; shadowLen := shadowLen; angle := angle; dx := dx; dy := dy |}.

(** The callback of [buildingData.forEach]. *)
Definition buildingFootprint (azimuth alt : num) (b : Element) : JS unit :=
  match geometry b with
  | Some geom =>
      if (length geom <? 3)%nat then mret tt
      else
        let footprint := (λ pt, (lon pt, lat pt)) <$> geom in
        g ← gets buildingLayer;
        polygon_addTo {| latlngs := (λ p, (p.2, p.1)) <$> footprint; options := grey |} g;;
        modify (log_shadow (shadowOf azimuth alt b))
  | None => mret tt
  end.

Definition drawBuildings (env : Env) (lat lon hour : num) : JS unit :=
  oldB ← gets buildingLayer;
  match oldB with Some g => clearLayers g | None => mret tt end;;
  oldS ← gets shadowLayer;
  match oldS with Some g => clearLayers g | None => mret tt end;;
  gB ← layerGroup_addTo_map;
  modify (set_buildingLayer gB);;
  gS ← layerGroup_addTo_map;
  modify (set_shadowLayer gS);;
  let now := getDateForHour env hour in
  let sunPos := getPosition env now lat lon in
  let azimuth := azimuth sunPos in
  let alt := altitude sunPos in
  if (alt <=? Fin 0)%js then mret tt
  else
    bs ← gets buildingData;
    forEach (buildingFootprint azimuth alt) bs.

(** ** [updateScene] *)

Definition updateScene (env : Env) (lat lon hour : num) : JS unit :=
  drawStreets env lat lon hour;;
  drawBuildings env lat lon hour.

(** ** Notions the properties are stated with *)

(** The consecutive pairs [(l[0], l[1]), (l[1], l[2]), ...] of a list. *)
Definition pairs {A : Type} (l : list A) : list (A * A) := zip l (tail l).

(** A polygon of the street layer, and one of the building layer. *)
Definition litPolygon (roadWidth : num) (pq : (num * num) * (num * num)) : Polygon :=
  {| latlngs := litQuad roadWidth pq.1 pq.2; options := gold |}.

Definition isLit (azimuthDeg : num) (pq : (num * num) * (num * num)) : bool :=
  (minDiff azimuthDeg pq.1 pq.2 <? Fin 20)%js.

(** The sun position that both drawing functions work with. *)
Definition sunAt (env : Env) (lat lon hour : num) : SunPos :=
  getPosition env (getDateForHour env hour) lat lon.

(** The feature carries the tag [k] with the value [v]. *)
Definition hasTag (b : Element) (k v : string) : Prop :=
  ∃ t, tags b = Some t ∧ t !! k = Some v.

(** The state after [if (g) g.clearLayers()]. *)
Definition cleared (g : option nat) (s : State) : State :=
  match g with
  | Some i => set_layers (λ ls, <[i := []]> ls) s
  | None => s
  end.

(** The state after the first two lines of [drawStreets]: the old street
    layer is emptied and [streetLayer] is a new, empty group. *)
Definition streetsReset (s : State) : State :=
  let s1 := cleared (streetLayer s) s in
  set_streetLayer (length (layers s1)) (set_layers (λ ls, ls ++ [[]]) s1).

(** The state after the first four lines of [drawBuildings]. *)
Definition buildingsReset (s : State) : State :=
  let s1 := cleared (buildingLayer s) s in
  let s2 := cleared (shadowLayer s1) s1 in
  let s3 := set_buildingLayer (length (layers s2)) (set_layers (λ ls, ls ++ [[]]) s2) in
  set_shadowLayer (length (layers s3)) (set_layers (λ ls, ls ++ [[]]) s3).

(** A corner with finite coordinates. *)
Definition corner (p : R * R) : num * num := (Fin p.1, Fin p.2).

(** The states the script can be in: the layer variables refer to groups
    that exist, the street layer holds gold polygons only, the building
    layer grey ones only, the shadow layer nothing, and a group that no
    layer variable refers to any more is empty. *)
Record wf (s : State) : Prop := {
  wf_street : ∀ g, streetLayer s = Some g → g < length (layers s);
  wf_building : ∀ g, buildingLayer s = Some g → g < length (layers s);
  wf_shadow : ∀ g, shadowLayer s = Some g → g < length (layers s);
  wf_gold : ∀ p, p ∈ layerOf (streetLayer s) s → options p = gold;
  wf_grey : ∀ p, p ∈ layerOf (buildingLayer s) s → options p = grey;
  wf_none : layerOf (shadowLayer s) s = [];
  wf_other : ∀ i ps, layers s !! i = Some ps → ps ≠ [] →
             streetLayer s = Some i ∨ buildingLayer s = Some i;
  wf_apart : ∀ g, streetLayer s = Some g →
             buildingLayer s ≠ Some g ∧ shadowLayer s ≠ Some g;
  wf_apart' : ∀ g, buildingLayer s = Some g → shadowLayer s ≠ Some g
}.

(** A statement keeps an invariant, however it completes. *)
Definition preserves {A : Type} (I : State → Prop) (m : JS A) : Prop :=
  ∀ s, I s → I (m s).2.

(** ** Sample inputs *)

Module Sample.

(** A residential way. *)
Definition residential (geom : list Pt) : Element :=
  {| tags := Some {[ "highway" := "residential" ]}; geometry := Some geom |}.

Definition way2 (a b : Pt) : Element := residential [a; b].

(** A footpath, which is not one of the main roads. *)
Definition footway (geom : list Pt) : Element :=
  {| tags := Some {[ "highway" := "footway" ]}; geometry := Some geom |}.

(** A building of three corners with the given tags. *)
Definition building (t : gmap string string) : Element :=
  {| tags := Some t;
     geometry := Some [ {| lat := Fin 0; lon := Fin 0 |};
                        {| lat := Fin 0; lon := Fin 1 |};
                        {| lat := Fin 1; lon := Fin 0 |} ] |}.

Definition untagged : Element := building ∅.

Definition levels4 : Element := building {[ "building:levels" := "4" ]}.

Definition both : Element :=
  building {[ "building:height" := "7.5"; "building:levels" := "4" ]}.

(** A height that is no number, next to a usable level count. *)
Definition tall : Element :=
  building {[ "building:height" := "tall"; "building:levels" := "4" ]}.

(** A height tag whose value is the empty string. *)
Definition blank : Element := building {[ "building:height" := "" ]}.

Definition blankLevels4 : Element :=
  building {[ "building:height" := ""; "building:levels" := "4" ]}.

(** A sun that stands still at the given position. *)
Definition fixedSun (az alt : num) : Env :=
  {| today := {| fullYear := Fin 2025; month := Fin 5; date := Fin 21;
                 hours := Fin 0; minutes := Fin 0; seconds := Fin 0 |};
     getPosition := λ _ _ _, {| azimuth := az; altitude := alt |} |}.

(** The state after the data of a fetch was stored and before anything
    was drawn. *)
Definition loaded (streets buildings : list Element) : State :=
  {| layers := []; streetData := streets; buildingData := buildings;
     streetLayer := None; buildingLayer := None; shadowLayer := None;
     shadows := [] |}.

(** A night: the sun is below the horizon. *)
Definition night : Env := fixedSun (Fin 1) (Fin (-1)).

(** A morning: the sun is in the east, about 57 degrees up. *)
Definition morning : Env := fixedSun (Fin (-1)) (Fin 1).

(** One street running north and one building, nothing drawn yet. *)
Definition town : State :=
  loaded [way2 {| lat := Fin 0; lon := Fin 0 |} {| lat := Fin 1; lon := Fin 0 |}]
         [building ∅].

(** The sun due north (SunCalc counts the azimuth from the south), above
    the horizon. *)
Definition north : Env := fixedSun Num.PI (Fin 1).

Definition paris : Pt := {| lat := Fin 48.8566; lon := Fin 2.3522 |}.

(** One residential way whose two points are the same. *)
Definition stub : State := loaded [way2 paris paris] [].

(** A state with one empty group, which is the street layer. *)
Definition oneLayer : State :=
  {| layers := [[]]; streetData := []; buildingData := [];
     streetLayer := Some 0%nat; buildingLayer := None; shadowLayer := None;
     shadows := [] |}.

End Sample.

(** ** [updateData] and the handlers of [initMap]

    [fetchData] is the network: its answer, the array [data.elements], is
    an argument of what runs after the [await]. *)

Definition set_streetData (d : list Element) (s : State) : State :=
  {| layers := layers s; streetData := d;
     buildingData := buildingData s; streetLayer := streetLayer s;
     buildingLayer := buildingLayer s; shadowLayer := shadowLayer s;
     shadows := shadows s |}.

Definition set_buildingData (d : list Element) (s : State) : State :=
  {| layers := layers s; streetData := streetData s;
     buildingData := d; streetLayer := streetLayer s;
     buildingLayer := buildingLayer s; shadowLayer := shadowLayer s;
     shadows := shadows s |}.

(** [l.filter(f)] for a callback that may throw. *)
Fixpoint filterJS {A : Type} (f : A → JS bool) (l : list A) : JS (list A) :=
  match l with
  | [] => mret []
  | x :: l' =>
      b ← f x;
      r ← filterJS f l';
      mret (if b : bool then x :: r else r)
  end.

(** [e => e.tags && e.tags.highway] *)
Definition isStreet (e : Element) : bool :=
  match truthyTag e "highway" with
  | Some _ => true
  | None => false
  end.

(** [e => e.tags && e.tags.building && e.geometry.length >= 3]; reading
    [length] throws when [e.geometry] is missing. *)
Definition isBuilding (e : Element) : JS bool :=
  match truthyTag e "building" with
  | Some _ =>
      match geometry e with
      | Some geom => mret (3 <=? length geom)%nat
      | None => throw
      end
  | None => mret false
  end.

(** [updateData] from the answer of the fetch on. *)
Definition updateData (env : Env) (elements : list Element) (lat lon hour : num) : JS unit :=
  modify (set_streetData (List.filter isStreet elements));;
  bs ← filterJS isBuilding elements;
  modify (set_buildingData bs);;
  updateScene env lat lon hour.

(** [parseInt(string, 10)]: decimal, no [0x] prefix. *)
Definition parseInt10 (s : string) : num :=
  let '(neg, s2) := Parse.sign (Parse.trimStart s) in
  let '(v, n, _) := Parse.digits 10 s2 0%Z 0%nat in
  Parse.num_of_numeral
    match n with
    | O => Parse.NoNumber
    | S _ => Parse.Dec neg v 0
    end.

(** What [initMap] makes happen to the state: the first fetch comes back;
    a fetch started by a click at [(lat, lng)], the slider then showing
    [value], comes back; the slider is moved to [value] while the map is
    centred at [(lat, lng)]. *)
Inductive Event : Type :=
  | InitialFetch (elements : list Element)
  | ClickFetch (elements : list Element) (lat lng : num) (value : string)
  | SliderInput (value : string) (lat lng : num).

Definition handle (env : Env) (ev : Event) : JS unit :=
  match ev with
  | InitialFetch elements =>
      updateData env elements (Fin 48.8566) (Fin 2.3522) (Fin 12)
  | ClickFetch elements lat lng value =>
      updateData env elements lat lng (parseInt value)
  | SliderInput value lat lng =>
      updateScene env lat lng (parseInt10 value)
  end.

(** The states the page passes through: the clock and the sun are those of
    the moment of each event; a handler that throws leaves the state as it
    was at the throw. *)
Inductive reachable : State → Prop :=
  | reachable_initial : reachable initial
  | reachable_step (env : Env) (ev : Event) (s : State) :
      reachable s → reachable (handle env ev s).2.

(** ** What the drawing functions put on the map *)

(** A way whose [tags] can be read whenever its [geometry] is there. *)
Definition tagged (way : Element) : Prop :=
  is_Some (geometry way) → is_Some (tags way).

(** The polygons one way adds to the street layer. *)
Definition wayQuads (azimuthDeg roadWidth : num) (way : Element) : list Polygon :=
  match geometry way, tags way with
  | Some geom, Some t =>
      if includes mainRoads (t !! "highway") && (2 <=? length geom)%nat
      then litPolygon roadWidth <$>
             List.filter (isLit azimuthDeg) (pairs ((λ pt, (lat pt, lon pt)) <$> geom))
      else []
  | _, _ => []
  end.

(** A building that is drawn: it has a geometry of three points or more. *)
Definition drawable (b : Element) : bool :=
  match geometry b with
  | Some geom => negb (length geom <? 3)%nat
  | None => false
  end.

(** The polygon of a building that is drawn. *)
Definition footprintOf (b : Element) : Polygon :=
  {| latlngs := (λ pt, (lat pt, lon pt)) <$> default [] (geometry b);
     options := grey |}.

(** The street polygons, the building polygons and the shadow records of
    one pass, from the data and the sun alone. *)
Definition streetPolys (env : Env) (lat lon hour : num) (ways : list Element) : list Polygon :=
  if Num.le (altDegOf (sunAt env lat lon hour)) (Fin 0) then []
  else concat (wayQuads (azimuthDegOf (sunAt env lat lon hour)) (Fin 6) <$> ways).

Definition buildingPolys (env : Env) (lat lon hour : num) (bs : list Element) : list Polygon :=
  if Num.le (altitude (sunAt env lat lon hour)) (Fin 0) then []
  else footprintOf <$> List.filter drawable bs.

Definition buildingShadows (env : Env) (lat lon hour : num) (bs : list Element) : list Shadow :=
  if Num.le (altitude (sunAt env lat lon hour)) (Fin 0) then []
  else shadowOf (azimuth (sunAt env lat lon hour)) (altitude (sunAt env lat lon hour))
         <$> List.filter drawable bs.

(** The state with the old street layer emptied and a new street layer
    holding [ps]. *)
Definition streetsDrawn (ps : list Polygon) (s : State) : State :=
  set_streetLayer (length (layers s))
    (set_layers (λ _, layers (cleared (streetLayer s) s) ++ [ps]) s).

(** The state with the old building and shadow layers emptied, a new
    building layer holding [ps], a new empty shadow layer, and the shadow
    records [vs] added. *)
Definition buildingsDrawn (ps : list Polygon) (vs : list Shadow) (s : State) : State :=
  {| layers := layers (cleared (shadowLayer s) (cleared (buildingLayer s) s)) ++ [ps; []];
     streetData := streetData s; buildingData := buildingData s;
     streetLayer := streetLayer s;
     buildingLayer := Some (length (layers s));
     shadowLayer := Some (S (length (layers s)));
     shadows := shadows s ++ vs |}.

(** What [updateData] guarantees of the stored data. *)
Definition dataOk (s : State) : Prop :=
  Forall (λ e, isStreet e = true) (streetData s)
  ∧ Forall (λ e, is_Some (truthyTag e "building") ∧ drawable e = true) (buildingData s).

(** The buildings [updateData] keeps. *)
Definition keptBuilding (e : Element) : bool :=
  match truthyTag e "building" with
  | Some _ => drawable e
  | None => false
  end.

(** A fetched element whose [geometry] can be read when it is tagged as a
    building. *)
Definition measurable (e : Element) : Prop :=
  is_Some (truthyTag e "building") → is_Some (geometry e).

Module Fixture.

(** An element tagged as a building that came without a geometry. *)
Definition hollow : Element :=
  {| tags := Some {[ "building" := "yes" ]}; geometry := None |}.

(** A building of two points only. *)
Definition sliver : Element :=
  {| tags := Some {[ "building" := "yes" ]};
     geometry := Some [Sample.paris; Sample.paris] |}.

Definition house : Element := Sample.building {[ "building" := "yes" ]}.

Definition road : Element :=
  Sample.way2 {| lat := Fin 0; lon := Fin 0 |} {| lat := Fin 1; lon := Fin 0 |}.

(** An answer of the fetch: a road, a house, a building too small to keep. *)
Definition answer : list Element := [road; house; sliver].

End Fixture.

Module Polar.

(** A sun position that is not a number, as SunCalc gives for an invalid
    date or position. *)
Definition blind : Env := Sample.fixedSun NaN NaN.

End Polar.

(** ** Lines 54 to 69 in binary64

    The arithmetic of the quad of a pair, on IEEE binary64 numbers as the
    script runs it: rounding, overflow and underflow included. *)

Module B64.
Import Floats.
Local Open Scope float_scope.

Definition litQuad (roadWidth : float) (p1 p2 : float * float) : list (float * float) :=
  let dx := p2.2 - p1.2 in
  let dy := p2.1 - p1.1 in
  let segLen := PrimFloat.sqrt (dx * dx + dy * dy) in
  let offsetLat := (roadWidth / 110540) * (dx / segLen) in
  let offsetLon := (roadWidth / 111320) * (- dy / segLen) in
  [ (p1.1 + offsetLat, p1.2 + offsetLon);
    (p2.1 + offsetLat, p2.2 + offsetLon);
    (p2.1 - offsetLat, p2.2 - offsetLon);
    (p1.1 - offsetLat, p1.2 - offsetLon) ].

(** [const roadWidth = 6] *)
Definition roadWidth : float := 6.



End B64.

(** * Properties *)

(** ** Arithmetic of [num] *)

Section NumFacts.
Local Open Scope R_scope.

Lemma Rsgn_pos (r : R) : 0 < r → Num.Rsgn r = Num.Pos.
Proof.
  intros Hr. unfold Num.Rsgn.
  destruct (Rlt_dec r 0); [lra|]. destruct (Rlt_dec 0 r); [reflexivity | lra].
Qed.

Lemma Rsgn_zero : Num.Rsgn 0 = Num.Zero.
Proof.
  unfold Num.Rsgn. destruct (Rlt_dec 0 0); [lra | reflexivity].
Qed.

Lemma lt_Fin (x y : R) : Num.lt (Fin x) (Fin y) = true ↔ x < y.
Proof.
  simpl. destruct (Rlt_dec x y); split; intros; try lra; try reflexivity; discriminate.
Qed.

Lemma le_Fin (x y : R) : Num.le (Fin x) (Fin y) = true ↔ x <= y.
Proof.
  simpl. destruct (Rle_dec x y); split; intros; try lra; try reflexivity; discriminate.
Qed.

Lemma le_Fin_false (x y : R) : Num.le (Fin x) (Fin y) = false ↔ y < x.
Proof.
  simpl. destruct (Rle_dec x y); split; intros; try lra; try reflexivity; discriminate.
Qed.

Lemma div_Fin (x y : R) : y ≠ 0 → Num.div (Fin x) (Fin y) = Fin (x / y).
Proof.
  intros Hy. simpl. destruct (Req_dec_T y 0); [contradiction | reflexivity].
Qed.

Lemma div_PI (x : R) : Num.div (Fin x) Num.PI = Fin (x / PI).
Proof. apply div_Fin, PI_neq0. Qed.

Lemma div_zero_zero : Num.div (Fin 0) (Fin 0) = NaN.
Proof.
  simpl. destruct (Req_dec_T 0 0); [| congruence]. now rewrite Rsgn_zero.
Qed.

Lemma sqrt_Fin (x : R) : 0 <= x → Num.sqrt (Fin x) = Fin (sqrt x).
Proof.
  intros Hx. simpl. destruct (Rlt_dec x 0); [lra | reflexivity].
Qed.

Lemma Rtrunc_nonneg (x : R) : 0 <= x → Num.Rtrunc x = IZR (Int_part x).
Proof.
  intros Hx. unfold Num.Rtrunc. destruct (Rle_dec 0 x); [reflexivity | lra].
Qed.

Lemma rem_Fin (x y : R) :
  y ≠ 0 → Num.rem (Fin x) (Fin y) = Fin (x - y * Num.Rtrunc (x / y)).
Proof.
  intros Hy. simpl. destruct (Req_dec_T y 0); [contradiction | reflexivity].
Qed.

(** A non-negative dividend leaves a remainder in [[0, 360)]. *)
Lemma rem_360_nonneg (x : R) :
  0 <= x → ∃ r, Num.rem (Fin x) (Fin 360) = Fin r ∧ 0 <= r < 360.
Proof.
  intros Hx. rewrite rem_Fin by lra. eexists; split; [reflexivity|].
  rewrite Rtrunc_nonneg by (apply Rmult_le_pos; lra).
  destruct (base_Int_part (x / 360)) as [Hlo Hhi].
  assert (Hq : x = 360 * (x / 360)) by (field).
  set (q := IZR (Int_part (x / 360))) in *.
  split; lra.
Qed.

Lemma atan2_range (b a : R) :
  ∃ t, Num.atan2 (Fin b) (Fin a) = Fin t ∧ - PI < t <= PI.
Proof.
  pose proof PI_RGT_0 as Hpi.
  simpl.
  destruct (Rlt_dec 0 a) as [Ha|Ha].
  - eexists; split; [reflexivity|]. pose proof (atan_bound (b / a)). lra.
  - destruct (Rlt_dec a 0) as [Ha'|Ha'].
    + assert (Hinv : / a < 0) by (apply Rinv_lt_0_compat; exact Ha').
      destruct (Rlt_dec b 0) as [Hb|Hb]; (eexists; split; [reflexivity|]);
        pose proof (atan_bound (b / a)) as Hat.
      * assert (0 < b / a).
        { unfold Rdiv. replace (b * / a) with ((- b) * (- / a)) by ring.
          apply Rmult_lt_0_compat; lra. }
        assert (0 < atan (b / a)).
        { rewrite <- atan_0. apply atan_increasing. assumption. }
        lra.
      * assert (b / a <= 0).
        { unfold Rdiv. replace (b * / a) with (- (b * (- / a))) by ring.
          assert (0 <= b * - / a) by (apply Rmult_le_pos; lra). lra. }
        assert (atan (b / a) <= 0).
        { rewrite <- atan_0. destruct H as [H|H].
          - left. apply atan_increasing. assumption.
          - right. rewrite H. reflexivity. }
        lra.
    + destruct (Rlt_dec 0 b); [eexists; split; [reflexivity|]; lra|].
      destruct (Rlt_dec b 0); eexists; (split; [reflexivity|]); lra.
Qed.

End NumFacts.

(** ** Angles: the adjusted azimuth and the bearing of a pair *)

Section Angles.
Local Open Scope R_scope.

(** Radians to degrees keeps [(-PI, PI]] inside [(-180, 180]]. *)
Lemma degrees_bound (t lo : R) :
  lo * PI <= t <= PI → 180 * lo <= t * 180 / PI <= 180.
Proof.
  intros Ht. pose proof PI_RGT_0 as Hpi.
  assert (E : t * 180 / PI = 180 * (t / PI)) by (field; lra).
  assert (Hu : t = t / PI * PI) by (field; lra).
  set (u := t / PI) in *. rewrite E. nra.
Qed.

Lemma azimuthDegOf_Fin (a : R) (alt : num) :
  azimuthDegOf {| azimuth := Fin a; altitude := alt |}
  = Num.rem (Fin (a * 180 / PI + 180)) (Fin 360).
Proof.
  unfold azimuthDegOf. cbn [azimuth Num.mul]. rewrite div_PI. reflexivity.
Qed.

Lemma bearing_Fin (p1 p2 : R * R) :
  ∃ t, Num.atan2 (Fin (p2.2 - p1.2)) (Fin (p2.1 - p1.1)) = Fin t
       ∧ - PI < t <= PI
       ∧ bearing (corner p1) (corner p2)
         = Num.rem (Fin (t * 180 / PI + 360)) (Fin 360).
Proof.
  destruct (atan2_range (p2.2 - p1.2) (p2.1 - p1.1)) as (t & Et & Ht).
  exists t. split; [exact Et|]. split; [exact Ht|].
  unfold bearing, corner. cbn [fst snd Num.sub Num.neg Num.add].
  change (p2.2 + - p1.2) with (p2.2 - p1.2).
  change (p2.1 + - p1.1) with (p2.1 - p1.1).
  rewrite Et. cbn [Num.mul]. rewrite div_PI. reflexivity.
Qed.

(** The bearing of any pair of finite points is a finite angle in
    [[0, 360)]. *)
Lemma bearing_range (p1 p2 : R * R) :
  ∃ t, bearing (corner p1) (corner p2) = Fin t ∧ 0 <= t < 360.
Proof.
  destruct (bearing_Fin p1 p2) as (t & _ & Ht & ->).
  apply rem_360_nonneg.
  assert (180 * (-1) <= t * 180 / PI <= 180) by (apply degrees_bound; lra).
  lra.
Qed.

(** C5: for every sun azimuth, a finite number from [-PI] to [PI] as
    SunCalc gives it, the adjusted azimuth lies in [[0, 360)]; and the
    bearing of every pair of finite points, distinct or not, lies in
    [[0, 360)]. *)
Theorem angles_in_range :
  (∀ (a : R) (alt : num), - PI <= a <= PI →
     ∃ d, azimuthDegOf {| azimuth := Fin a; altitude := alt |} = Fin d
          ∧ 0 <= d < 360)
  ∧ (∀ p1 p2 : R * R,
       ∃ t, bearing (corner p1) (corner p2) = Fin t ∧ 0 <= t < 360).
Proof.
  split.
  - intros a alt Ha. rewrite azimuthDegOf_Fin. apply rem_360_nonneg.
    assert (180 * (-1) <= a * 180 / PI <= 180) by (apply degrees_bound; lra).
    lra.
  - apply bearing_range.
Qed.

Lemma angles_in_range_witness :
  (∃ d, azimuthDegOf {| azimuth := Fin (-1); altitude := Fin 1 |} = Fin d
        ∧ 0 <= d < 360)
  ∧ (∃ t, bearing (corner (0, 0)) (corner (1, 0)) = Fin t ∧ 0 <= t < 360).
Proof.
  split.
  - apply (proj1 angles_in_range (-1) (Fin 1)). pose proof PI2_1. lra.
  - apply (proj2 angles_in_range).
Defined.

End Angles.

(** ** Which pairs are lit *)

Section Lit.
Local Open Scope R_scope.

Lemma min_Fin (x y : R) : Num.min (Fin x) (Fin y) = Fin (Rmin x y).
Proof.
  unfold Num.min, Num.lt, Rmin.
  destruct (Rlt_dec y x), (Rle_dec x y); try reflexivity; lra.
Qed.

Lemma minDiff_Fin (z t : R) (p1 p2 : num * num) :
  bearing p1 p2 = Fin t →
  minDiff (Fin z) p1 p2 = Fin (Rmin (Rabs (t - z)) (360 - Rabs (t - z))).
Proof.
  intros E. unfold minDiff. rewrite E.
  cbn [Num.sub Num.neg Num.add Num.abs]. rewrite min_Fin. reflexivity.
Qed.

(** The [for] loop over the indices visits the consecutive pairs. *)
Lemma for_pairs (f : num * num → num * num → JS unit) (l pre : list (num * num)) :
  ∀ s,
    forEach (λ i, match (pre ++ l) !! i, (pre ++ l) !! S i with
                  | Some p1, Some p2 => f p1 p2
                  | _, _ => throw
                  end) (seq (length pre) (length l - 1)) s
    = forEach (λ pq, f pq.1 pq.2) (pairs l) s.
Proof.
  revert pre. induction l as [|x l IH]; intros pre s; [reflexivity|].
  destruct l as [|y l]; [reflexivity|].
  cbn [length Nat.sub seq].
  change (pairs (x :: y :: l)) with ((x, y) :: pairs (y :: l)).
  cbn [forEach].
  assert (E1 : (pre ++ x :: y :: l) !! length pre = Some x)
    by (apply list_lookup_middle; reflexivity).
  assert (E2 : (pre ++ x :: y :: l) !! S (length pre) = Some y).
  { replace (pre ++ x :: y :: l) with ((pre ++ [x]) ++ y :: l)
      by (rewrite <- app_assoc; reflexivity).
    apply list_lookup_middle. rewrite length_app. simpl. lia. }
  unfold mbind, JS_bind at 1. rewrite E1, E2. cbn [fst snd].
  unfold JS_bind.
  destruct (f x y s) as [[[]|] s1]; [|reflexivity].
  specialize (IH (pre ++ [x]) s1).
  rewrite <- app_assoc in IH. cbn [app] in IH.
  rewrite length_app in IH. cbn [length] in IH.
  replace (length pre + 1)%nat with (S (length pre)) in IH by lia.
  cbn [length Nat.sub] in IH. rewrite Nat.sub_0_r in IH.
  exact IH.
Qed.

Lemma set_layers_id (f : list (list Polygon) → list (list Polygon)) (s : State) :
  f (layers s) = layers s → set_layers f s = s.
Proof. intros E. destruct s. unfold set_layers. cbn in *. rewrite E. reflexivity. Qed.

Lemma bind_run {A B : Type} (m : JS A) (f : A → JS B) (s : State) :
  (m ≫= f) s
  = match m s with
    | (Normal a, s') => f a s'
    | (Throw, s') => (Throw, s')
    end.
Proof. reflexivity. Qed.

Lemma streetPair_lit (az w : num) (p1 p2 : num * num) (g : nat) (s : State) :
  streetLayer s = Some g → isLit az (p1, p2) = true →
  streetPair az w p1 p2 s
  = (Normal tt, set_layers (alter (λ qs, qs ++ [litPolygon w (p1, p2)]) g) s).
Proof.
  unfold isLit, streetPair. cbn [fst snd]. intros Hg ->.
  rewrite bind_run. unfold gets. rewrite Hg. reflexivity.
Qed.

Lemma streetPair_unlit (az w : num) (p1 p2 : num * num) (s : State) :
  isLit az (p1, p2) = false → streetPair az w p1 p2 s = (Normal tt, s).
Proof.
  unfold isLit, streetPair. cbn [fst snd]. intros ->. reflexivity.
Qed.

(** Running the loop body over a list of pairs appends the quads of the
    lit ones, in order, to the street layer. *)
Lemma streetPairs_run (az w : num) (g : nat) (ps : list ((num * num) * (num * num))) :
  ∀ s, streetLayer s = Some g →
    forEach (λ pq, streetPair az w pq.1 pq.2) ps s
    = (Normal tt,
       set_layers (alter (λ qs, qs ++ (litPolygon w <$> List.filter (isLit az) ps)) g) s).
Proof.
  induction ps as [|[p1 p2] ps IH]; intros s Hg.
  - cbn. f_equal. symmetry. apply set_layers_id.
    apply list_alter_id. intros qs. apply app_nil_r.
  - cbn [forEach List.filter fst snd]. rewrite bind_run.
    destruct (isLit az (p1, p2)) eqn:El.
    + rewrite (streetPair_lit az w p1 p2 g s Hg El).
      rewrite IH by exact Hg. f_equal.
      unfold set_layers. cbn. f_equal.
      rewrite list_alter_alter_eq. apply list_alter_ext; [|reflexivity].
      intros qs _. unfold compose. rewrite <- app_assoc. reflexivity.
    + rewrite (streetPair_unlit az w p1 p2 s El). apply IH, Hg.
Qed.

End Lit.

Section LitPairs.
Local Open Scope R_scope.

Lemma rem_360_360 : Num.rem (Fin 360) (Fin 360) = Fin 0.
Proof.
  rewrite rem_Fin by lra. f_equal.
  rewrite Rtrunc_nonneg by lra.
  rewrite <- (Int_part_spec (360 / 360) 1); simpl; lra.
Qed.

(** A pair that runs due north has bearing 0. *)
Lemma bearing_north (a b d : R) :
  0 < d → bearing (corner (a, b)) (corner (a + d, b)) = Fin 0.
Proof.
  intros Hd. unfold bearing, corner. cbn [fst snd Num.sub Num.neg Num.add].
  unfold Num.atan2. destruct (Rlt_dec 0 (a + d + - a)); [|lra].
  replace ((b + - b) / (a + d + - a)) with 0 by (field; lra).
  rewrite atan_0. cbn [Num.mul]. rewrite div_PI. cbn [Num.add].
  replace (0 * 180 / PI + 360) with 360 by (field; apply PI_neq0).
  apply rem_360_360.
Qed.

(** A pair of two equal points has bearing 0 ([Math.atan2(0, 0)] is 0). *)
Lemma bearing_degenerate (p : R * R) : bearing (corner p) (corner p) = Fin 0.
Proof.
  unfold bearing, corner. cbn [fst snd Num.sub Num.neg Num.add].
  unfold Num.atan2.
  destruct (Rlt_dec 0 (p.1 + - p.1)); [lra|].
  destruct (Rlt_dec (p.1 + - p.1) 0); [lra|].
  destruct (Rlt_dec 0 (p.2 + - p.2)); [lra|].
  destruct (Rlt_dec (p.2 + - p.2) 0); [lra|].
  cbn [Num.mul]. rewrite div_PI. cbn [Num.add].
  replace (0 * 180 / PI + 360) with 360 by (field; apply PI_neq0).
  apply rem_360_360.
Qed.

Lemma isLit_Fin (z t : R) (p1 p2 : num * num) :
  bearing p1 p2 = Fin t →
  isLit (Fin z) (p1, p2) = true ↔ Rmin (Rabs (t - z)) (360 - Rabs (t - z)) < 20.
Proof.
  intros E. unfold isLit. cbn [fst snd].
  rewrite (minDiff_Fin z t p1 p2 E). apply lt_Fin.
Qed.

(** What [streetWay] does with a way it accepts. *)
Lemma streetWay_accepted (az w : num) (way : Element)
    (t : gmap string string) (geom : list Pt) (g : nat) (s : State) :
  geometry way = Some geom → tags way = Some t →
  includes mainRoads (t !! "highway") = true →
  (2 <= length geom)%nat →
  streetLayer s = Some g →
  streetWay az w way s
  = (Normal tt,
     set_layers
       (alter (λ qs, qs ++ (litPolygon w <$>
                 List.filter (isLit az) (pairs ((λ pt, (lat pt, lon pt)) <$> geom)))) g) s).
Proof.
  intros Hgeom Htags Hroad Hlen Hg. unfold streetWay.
  rewrite Hgeom, Htags, Hroad. cbn [negb].
  set (latlngs := (λ pt, (lat pt, lon pt)) <$> geom).
  destruct (Nat.ltb_spec (length latlngs) 2) as [Hlt|_].
  { unfold latlngs in Hlt. rewrite length_fmap in Hlt. lia. }
  etrans; [exact (for_pairs (streetPair az w) _ [] s)|].
  apply streetPairs_run, Hg.
Qed.

(** C2: of an accepted way, exactly the consecutive pairs whose [minDiff]
    is below 20 get a quad, in order; for finite points and a finite
    adjusted azimuth [z], a pair of bearing [t] is lit if and only if
    [min(|t - z|, 360 - |t - z|) < 20], and a pair exactly 20 degrees away
    is not lit. *)
Theorem lit_iff_within_20 :
  (∀ (p1 p2 : R * R) (z : R),
     ∃ t, bearing (corner p1) (corner p2) = Fin t
          ∧ (isLit (Fin z) (corner p1, corner p2) = true
             ↔ Rmin (Rabs (t - z)) (360 - Rabs (t - z)) < 20))
  ∧ (∀ (p1 p2 : R * R) (z t : R),
       bearing (corner p1) (corner p2) = Fin t →
       Rmin (Rabs (t - z)) (360 - Rabs (t - z)) = 20 →
       isLit (Fin z) (corner p1, corner p2) = false)
  ∧ (∀ (az w : num) (way : Element) (t : gmap string string)
       (geom : list Pt) (g : nat) (s : State),
       geometry way = Some geom → tags way = Some t →
       includes mainRoads (t !! "highway") = true →
       (2 <= length geom)%nat →
       streetLayer s = Some g →
       streetWay az w way s
       = (Normal tt,
          set_layers
            (alter (λ qs, qs ++ (litPolygon w <$>
               List.filter (isLit az) (pairs ((λ pt, (lat pt, lon pt)) <$> geom)))) g) s)).
Proof.
  split; [|split].
  - intros p1 p2 z. destruct (bearing_range p1 p2) as (t & E & _).
    exists t. split; [exact E|]. apply isLit_Fin, E.
  - intros p1 p2 z t E H20.
    destruct (isLit (Fin z) (corner p1, corner p2)) eqn:El; [|reflexivity].
    apply (isLit_Fin z t _ _ E) in El. lra.
  - apply streetWay_accepted.
Qed.

Lemma Rmin_abs_20 : Rmin (Rabs (0 - 20)) (360 - Rabs (0 - 20)) = 20.
Proof.
  assert (E : Rabs (0 - 20) = 20) by (unfold Rabs; destruct (Rcase_abs (0 - 20)); lra).
  rewrite E. unfold Rmin. destruct (Rle_dec 20 (360 - 20)); lra.
Qed.

Lemma lit_iff_within_20_witness :
  isLit (Fin 20) (corner (0, 0), corner (0 + 1, 0)) = false
  ∧ streetWay (Fin 20) (Fin 6)
      (Sample.way2 {| lat := Fin 0; lon := Fin 0 |} {| lat := Fin 1; lon := Fin 0 |})
      Sample.oneLayer
    = (Normal tt,
       set_layers
         (alter (λ qs, qs ++ (litPolygon (Fin 6) <$>
            List.filter (isLit (Fin 20))
              (pairs ((λ pt, (lat pt, lon pt)) <$>
                 [ {| lat := Fin 0; lon := Fin 0 |}; {| lat := Fin 1; lon := Fin 0 |} ]))))
            0%nat) Sample.oneLayer).
Proof.
  destruct lit_iff_within_20 as (_ & H2 & H3). split.
  - apply (H2 (0, 0) (0 + 1, 0) 20 0).
    + apply bearing_north. lra.
    + apply Rmin_abs_20.
  - apply (H3 (Fin 20) (Fin 6) _ {[ "highway" := "residential" ]}).
    + reflexivity.
    + reflexivity.
    + vm_compute. reflexivity.
    + simpl. lia.
    + reflexivity.
Defined.

End LitPairs.

(** ** Ways that are skipped, and the pair that is not *)

Section Ways.
Local Open Scope R_scope.

(** C8: a way whose [highway] value is none of [primary], [secondary],
    [tertiary], [residential], or whose geometry has fewer than two points,
    leaves the state as it is: no quad is added for it. *)
Theorem skipped_way (az w : num) (way : Element) (t : gmap string string) (s : State) :
  tags way = Some t →
  (∀ h, t !! "highway" = Some h → h ∉ mainRoads)
  ∨ (∀ geom, geometry way = Some geom → (length geom < 2)%nat) →
  streetWay az w way s = (Normal tt, s).
Proof.
  intros Htags Hskip. unfold streetWay. rewrite Htags.
  destruct (geometry way) as [geom|]; [|reflexivity].
  destruct (includes mainRoads (t !! "highway")) eqn:Hin; [|reflexivity].
  cbn [negb]. destruct Hskip as [Hroad|Hshort].
  - exfalso. unfold includes in Hin.
    destruct (t !! "highway") as [h|]; [|discriminate].
    apply bool_decide_eq_true in Hin. exact (Hroad h eq_refl Hin).
  - specialize (Hshort geom eq_refl). rewrite length_fmap.
    destruct (Nat.ltb_spec (length geom) 2); [reflexivity | lia].
Qed.

Lemma skipped_way_witness :
  streetWay (Fin 0) (Fin 6)
    (Sample.footway [Sample.paris; {| lat := Fin 48.8570; lon := Fin 2.3522 |}])
    Sample.oneLayer
  = (Normal tt, Sample.oneLayer)
  ∧ streetWay (Fin 0) (Fin 6) (Sample.residential [Sample.paris]) Sample.oneLayer
    = (Normal tt, Sample.oneLayer).
Proof.
  split.
  - apply (skipped_way (Fin 0) (Fin 6) _ {[ "highway" := "footway" ]} Sample.oneLayer).
    + reflexivity.
    + left. intros h Hh Hin. vm_compute in Hh. injection Hh as <-.
      apply (bool_decide_pack _) in Hin. vm_compute in Hin. exact Hin.
  - apply (skipped_way (Fin 0) (Fin 6) _ {[ "highway" := "residential" ]} Sample.oneLayer).
    + reflexivity.
    + right. intros geom [= <-]. simpl. lia.
Defined.

Lemma mul_NaN (a : num) : Num.mul a NaN = NaN.
Proof. destruct a; reflexivity. Qed.

(** The quad of a pair of two equal points: every coordinate is [NaN],
    from the division [0 / 0] by the zero length. *)
Lemma litQuad_degenerate (w : num) (p : R * R) :
  litQuad w (corner p) (corner p) = [(NaN, NaN); (NaN, NaN); (NaN, NaN); (NaN, NaN)].
Proof.
  unfold litQuad, corner. cbn [fst snd Num.sub Num.neg Num.add Num.mul].
  replace (p.2 + - p.2) with 0 by ring. replace (p.1 + - p.1) with 0 by ring.
  replace (0 * 0 + 0 * 0) with 0 by ring.
  rewrite sqrt_Fin, sqrt_0 by lra.
  replace (- 0) with 0 by ring.
  rewrite div_zero_zero, !mul_NaN. reflexivity.
Qed.

(** The pair of two equal points is lit when the adjusted azimuth is
    within 20 degrees of north. *)
Lemma isLit_degenerate (p : R * R) (z : R) :
  Rmin (Rabs (0 - z)) (360 - Rabs (0 - z)) < 20 →
  isLit (Fin z) (corner p, corner p) = true.
Proof. intros Hz. apply (isLit_Fin z 0); [apply bearing_degenerate | exact Hz]. Qed.

End Ways.

(** ** The two drawing functions, by the height of the sun *)

Section Draw.
Variable env : Env.
Variables lat lon hour : num.

Lemma drawStreets_night (s : State) :
  Num.le (altDegOf (sunAt env lat lon hour)) (Fin 0) = true →
  drawStreets env lat lon hour s = (Normal tt, streetsReset s).
Proof.
  intros Halt. unfold drawStreets. rewrite bind_run. unfold gets at 1.
  unfold streetsReset, cleared. fold (sunAt env lat lon hour). rewrite Halt.
  destruct (streetLayer s); reflexivity.
Qed.

Lemma drawStreets_day (s : State) :
  Num.le (altDegOf (sunAt env lat lon hour)) (Fin 0) = false →
  drawStreets env lat lon hour s
  = forEach (streetWay (azimuthDegOf (sunAt env lat lon hour)) (Fin 6))
      (streetData s) (streetsReset s).
Proof.
  intros Halt. unfold drawStreets. rewrite bind_run. unfold gets at 1.
  unfold streetsReset, cleared. fold (sunAt env lat lon hour). rewrite Halt.
  destruct (streetLayer s); reflexivity.
Qed.

Lemma drawBuildings_night (s : State) :
  Num.le (altitude (sunAt env lat lon hour)) (Fin 0) = true →
  drawBuildings env lat lon hour s = (Normal tt, buildingsReset s).
Proof.
  intros Halt. unfold drawBuildings. rewrite bind_run. unfold gets at 1.
  unfold buildingsReset, cleared. fold (sunAt env lat lon hour). rewrite Halt.
  destruct s as [ls sd bd gst [gB|] [gS|] sh]; reflexivity.
Qed.

Lemma drawBuildings_day (s : State) :
  Num.le (altitude (sunAt env lat lon hour)) (Fin 0) = false →
  drawBuildings env lat lon hour s
  = forEach (buildingFootprint (azimuth (sunAt env lat lon hour))
               (altitude (sunAt env lat lon hour)))
      (buildingData s) (buildingsReset s).
Proof.
  intros Halt. unfold drawBuildings. rewrite bind_run. unfold gets at 1.
  unfold buildingsReset, cleared. fold (sunAt env lat lon hour). rewrite Halt.
  destruct s as [ls sd bd gst [gB|] [gS|] sh]; reflexivity.
Qed.

End Draw.

(** ** What is on the map *)

Section Scene.

Lemma elem_of_scene (p : Polygon) (s : State) :
  p ∈ scene s ↔ ∃ i ps, layers s !! i = Some ps ∧ p ∈ ps.
Proof.
  unfold scene. rewrite list_elem_of_In, in_concat. split.
  - intros (ps & Hps & Hp). apply list_elem_of_In, list_elem_of_lookup in Hps.
    destruct Hps as [i Hi]. exists i, ps. split; [exact Hi|].
    apply list_elem_of_In, Hp.
  - intros (i & ps & Hi & Hp). exists ps. split.
    + apply list_elem_of_In. eapply list_elem_of_lookup_2, Hi.
    + apply list_elem_of_In, Hp.
Qed.

(** Emptying a layer removes polygons only. *)
Lemma cleared_lookup (g : option nat) (s : State) (i : nat) (ps : list Polygon) :
  layers (cleared g s) !! i = Some ps →
  (g = Some i ∧ ps = []) ∨ (g ≠ Some i ∧ layers s !! i = Some ps).
Proof.
  destruct g as [j|]; cbn.
  - intros H. apply list_lookup_insert_Some in H.
    destruct H as [(-> & <- & _)|(Hne & H)]; [left; auto|].
    right. split; [congruence | exact H].
  - intros H. right. split; [discriminate | exact H].
Qed.

Lemma cleared_length (g : option nat) (s : State) :
  length (layers (cleared g s)) = length (layers s).
Proof. destruct g; cbn; [apply length_insert | reflexivity]. Qed.

Lemma streetsReset_lookup (s : State) (i : nat) (ps : list Polygon) :
  layers (streetsReset s) !! i = Some ps →
  ps = [] ∨ (streetLayer s ≠ Some i ∧ layers s !! i = Some ps).
Proof.
  unfold streetsReset. cbn. intros H. apply lookup_snoc_Some in H.
  destruct H as [[_ H]|[_ <-]]; [|left; reflexivity].
  apply cleared_lookup in H. destruct H as [[_ ->]|H]; [left; reflexivity | right; exact H].
Qed.

Lemma streetsReset_street (s : State) :
  streetLayer (streetsReset s) = Some (length (layers s))
  ∧ layerOf (streetLayer (streetsReset s)) (streetsReset s) = [].
Proof.
  unfold streetsReset, layerOf. cbn. rewrite cleared_length. split; [reflexivity|].
  rewrite lookup_app_r by (rewrite cleared_length; lia).
  rewrite cleared_length, Nat.sub_diag. reflexivity.
Qed.

Lemma buildingsReset_lookup (s : State) (i : nat) (ps : list Polygon) :
  layers (buildingsReset s) !! i = Some ps →
  ps = [] ∨ (buildingLayer s ≠ Some i ∧ shadowLayer s ≠ Some i
             ∧ layers s !! i = Some ps).
Proof.
  unfold buildingsReset. cbn. intros H.
  apply lookup_snoc_Some in H. destruct H as [[_ H]|[_ <-]]; [|left; reflexivity].
  apply lookup_snoc_Some in H. destruct H as [[_ H]|[_ <-]]; [|left; reflexivity].
  apply cleared_lookup in H. destruct H as [[_ ->]|[Hs H]]; [left; reflexivity|].
  apply cleared_lookup in H. destruct H as [[_ ->]|[Hb H]]; [left; reflexivity|].
  right. split; [exact Hb|]. split; [|exact H].
  destruct (buildingLayer s); exact Hs.
Qed.

Lemma buildingsReset_layers (s : State) :
  buildingLayer (buildingsReset s) = Some (length (layers s))
  ∧ shadowLayer (buildingsReset s) = Some (S (length (layers s)))
  ∧ streetLayer (buildingsReset s) = streetLayer s
  ∧ layerOf (buildingLayer (buildingsReset s)) (buildingsReset s) = []
  ∧ layerOf (shadowLayer (buildingsReset s)) (buildingsReset s) = []
  ∧ shadows (buildingsReset s) = shadows s.
Proof.
  assert (L : length (layers (cleared (shadowLayer (cleared (buildingLayer s) s))
                                (cleared (buildingLayer s) s))) = length (layers s))
    by (rewrite !cleared_length; reflexivity).
  unfold buildingsReset, layerOf. cbn. rewrite length_app, L. cbn.
  rewrite Nat.add_1_r.
  split; [reflexivity|]. split; [reflexivity|].
  split; [destruct s as [? ? ? ? [?|] [?|] ?]; reflexivity|].
  split; [|split].
  - rewrite lookup_app_l by (rewrite length_app, L; cbn; lia).
    rewrite lookup_app_r by (rewrite L; lia). rewrite L, Nat.sub_diag. reflexivity.
  - rewrite lookup_app_r by (rewrite length_app, L; cbn; lia).
    rewrite length_app, L. cbn. rewrite Nat.add_1_r, Nat.sub_diag. reflexivity.
  - destruct s as [? ? ? ? [?|] [?|] ?]; reflexivity.
Qed.

End Scene.

(** ** Sun below the horizon *)

Section Night.
Local Open Scope R_scope.

(** The altitude in degrees has the sign of the altitude in radians. *)
Lemma altDeg_nonpos (sunPos : SunPos) :
  Num.le (altitude sunPos) (Fin 0) = true →
  Num.le (altDegOf sunPos) (Fin 0) = true.
Proof.
  pose proof PI_RGT_0 as Hpi. unfold altDegOf.
  destruct (altitude sunPos) as [a| | |]; try discriminate.
  - intros Ha. apply le_Fin in Ha. cbn [Num.mul]. rewrite div_PI.
    apply le_Fin.
    assert (E : a * 180 / PI = 180 * / PI * a) by (field; lra). rewrite E.
    assert (0 < 180 * / PI) by (apply Rmult_lt_0_compat; [lra | apply Rinv_0_lt_compat; lra]).
    nra.
  - intros _. cbn [Num.mul Num.sgn_of]. rewrite Rsgn_pos by lra. cbn.
    destruct (Req_dec_T PI 0); [lra|]. rewrite Rsgn_pos by lra. reflexivity.
Qed.

(** C1: with the sun at or below the horizon, [drawStreets] ends with an
    empty street layer and adds no polygon to the map, and [drawBuildings]
    computes no shadow and leaves the shadow layer empty, whatever the
    street and building data are. *)
Theorem below_horizon_nothing (env : Env) (lat lon hour : num) (s : State) :
  Num.le (altitude (sunAt env lat lon hour)) (Fin 0) = true →
  (∃ s', drawStreets env lat lon hour s = (Normal tt, s')
         ∧ layerOf (streetLayer s') s' = []
         ∧ ∀ p, p ∈ scene s' → p ∈ scene s)
  ∧ (∃ s', drawBuildings env lat lon hour s = (Normal tt, s')
           ∧ shadows s' = shadows s
           ∧ layerOf (shadowLayer s') s' = []).
Proof.
  intros Halt. split.
  - exists (streetsReset s). split; [|split].
    + apply drawStreets_night, altDeg_nonpos, Halt.
    + apply streetsReset_street.
    + intros p Hp. apply elem_of_scene in Hp. destruct Hp as (i & ps & Hi & Hp).
      apply streetsReset_lookup in Hi. destruct Hi as [->|[_ Hi]].
      * apply elem_of_nil in Hp. contradiction.
      * apply elem_of_scene. exists i, ps. auto.
  - exists (buildingsReset s). split; [|split].
    + apply drawBuildings_night, Halt.
    + apply buildingsReset_layers.
    + apply buildingsReset_layers.
Qed.

Lemma below_horizon_nothing_witness :
  (∃ s', drawStreets Sample.night (Fin 48) (Fin 2) (Fin 23) Sample.town = (Normal tt, s')
         ∧ layerOf (streetLayer s') s' = []
         ∧ ∀ p, p ∈ scene s' → p ∈ scene Sample.town)
  ∧ (∃ s', drawBuildings Sample.night (Fin 48) (Fin 2) (Fin 23) Sample.town = (Normal tt, s')
           ∧ shadows s' = shadows Sample.town
           ∧ layerOf (shadowLayer s') s' = []).
Proof.
  apply (below_horizon_nothing Sample.night (Fin 48) (Fin 2) (Fin 23) Sample.town).
  apply le_Fin. lra.
Defined.

End Night.

(** ** The states the script reaches *)

Section Reachable.

Lemma elem_of_layerOf (p : Polygon) (g : option nat) (s : State) :
  p ∈ layerOf g s ↔ ∃ i ps, g = Some i ∧ layers s !! i = Some ps ∧ p ∈ ps.
Proof.
  unfold layerOf. split.
  - destruct g as [i|]; [|intros H; apply elem_of_nil in H; contradiction].
    destruct (layers s !! i) as [ps|] eqn:E; cbn.
    + intros H. exists i, ps. auto.
    + intros H. apply elem_of_nil in H. contradiction.
  - intros (i & ps & -> & -> & H). exact H.
Qed.

Lemma layerOf_nil (g : option nat) (s : State) :
  layerOf g s = [] ↔ ∀ i ps, g = Some i → layers s !! i = Some ps → ps = [].
Proof.
  unfold layerOf. split.
  - intros H i ps -> E. rewrite E in H. exact H.
  - intros H. destruct g as [i|]; [|reflexivity].
    destruct (layers s !! i) as [ps|] eqn:E; [|reflexivity].
    cbn. apply (H i ps); auto.
Qed.

Lemma wf_initial : wf initial.
Proof.
  split; cbn; try discriminate; try reflexivity.
  - intros p H. apply elem_of_nil in H. contradiction.
  - intros p H. apply elem_of_nil in H. contradiction.
Qed.

Lemma wf_streetsReset (s : State) : wf s → wf (streetsReset s).
Proof.
  intros W. destruct (streetsReset_street s) as [Hst Hnil].
  assert (Hlen : length (layers (streetsReset s)) = S (length (layers s))).
  { unfold streetsReset. cbn. rewrite length_app, cleared_length. cbn. lia. }
  assert (Hb : buildingLayer (streetsReset s) = buildingLayer s)
    by (unfold streetsReset, cleared; destruct (streetLayer s); reflexivity).
  assert (Hsh : shadowLayer (streetsReset s) = shadowLayer s)
    by (unfold streetsReset, cleared; destruct (streetLayer s); reflexivity).
  split.
  - intros g Hg. rewrite Hst in Hg. injection Hg as <-. lia.
  - intros g Hg. rewrite Hb in Hg. apply (wf_building s W) in Hg. lia.
  - intros g Hg. rewrite Hsh in Hg. apply (wf_shadow s W) in Hg. lia.
  - intros p Hp. rewrite Hnil in Hp. apply elem_of_nil in Hp. contradiction.
  - intros p Hp. apply elem_of_layerOf in Hp. destruct Hp as (i & ps & Hi & Hl & Hp).
    rewrite Hb in Hi. apply streetsReset_lookup in Hl. destruct Hl as [->|[_ Hl]].
    + apply elem_of_nil in Hp. contradiction.
    + apply (wf_grey s W). apply elem_of_layerOf. exists i, ps. auto.
  - apply layerOf_nil. intros i ps Hi Hl. rewrite Hsh in Hi.
    apply streetsReset_lookup in Hl. destruct Hl as [->|[_ Hl]]; [reflexivity|].
    exact (proj1 (layerOf_nil _ _) (wf_none s W) i ps Hi Hl).
  - intros i ps Hl Hne. apply streetsReset_lookup in Hl.
    destruct Hl as [->|[Hns Hl]]; [contradiction|].
    right. rewrite Hb. destruct (wf_other s W i ps Hl Hne); [contradiction | assumption].
  - intros g Hg. rewrite Hst in Hg. injection Hg as <-. rewrite Hb, Hsh. split.
    + intros E. apply (wf_building s W) in E. lia.
    + intros E. apply (wf_shadow s W) in E. lia.
  - intros g Hg. rewrite Hb in Hg. rewrite Hsh. exact (wf_apart' s W g Hg).
Qed.

Lemma wf_buildingsReset (s : State) : wf s → wf (buildingsReset s).
Proof.
  intros W.
  destruct (buildingsReset_layers s) as (Hb & Hsh & Hst & Hbnil & Hsnil & _).
  assert (Hlen : length (layers (buildingsReset s)) = S (S (length (layers s)))).
  { unfold buildingsReset. cbn. rewrite !length_app, !cleared_length. cbn. lia. }
  split.
  - intros g Hg. rewrite Hst in Hg. apply (wf_street s W) in Hg. lia.
  - intros g Hg. rewrite Hb in Hg. injection Hg as <-. lia.
  - intros g Hg. rewrite Hsh in Hg. injection Hg as <-. lia.
  - intros p Hp. apply elem_of_layerOf in Hp. destruct Hp as (i & ps & Hi & Hl & Hp).
    rewrite Hst in Hi. apply buildingsReset_lookup in Hl. destruct Hl as [->|(_ & _ & Hl)].
    + apply elem_of_nil in Hp. contradiction.
    + apply (wf_gold s W). apply elem_of_layerOf. exists i, ps. auto.
  - intros p Hp. rewrite Hbnil in Hp. apply elem_of_nil in Hp. contradiction.
  - exact Hsnil.
  - intros i ps Hl Hne. apply buildingsReset_lookup in Hl.
    destruct Hl as [->|(Hnb & _ & Hl)]; [contradiction|].
    left. rewrite Hst. destruct (wf_other s W i ps Hl Hne); [assumption | contradiction].
  - intros g Hg. rewrite Hst in Hg. rewrite Hb, Hsh.
    apply (wf_street s W) in Hg. split; intros [= E]; lia.
  - intros g Hg. rewrite Hb in Hg. injection Hg as <-. rewrite Hsh. intros [= E]. lia.
Qed.

Lemma preserves_bind {A B : Type} (I : State → Prop) (m : JS A) (f : A → JS B) :
  preserves I m → (∀ a, preserves I (f a)) → preserves I (m ≫= f).
Proof.
  intros Hm Hf s Hs. rewrite bind_run. specialize (Hm s Hs).
  destruct (m s) as [[a|] s1]; cbn in *; [apply Hf, Hm | exact Hm].
Qed.

Lemma preserves_forEach {A : Type} (I : State → Prop) (f : A → JS unit) (l : list A) :
  (∀ x, preserves I (f x)) → preserves I (forEach f l).
Proof.
  intros Hf. induction l as [|x l IH]; [intros s Hs; exact Hs|].
  cbn [forEach]. apply preserves_bind; [apply Hf | intros _; exact IH].
Qed.

(** Adding a polygon to the group [g] keeps the invariant when the other
    layers are other groups and the polygon has the style of [g]. *)
Lemma wf_add (p : Polygon) (g : nat) (s : State) :
  wf s →
  (streetLayer s = Some g ∧ options p = gold)
  ∨ (buildingLayer s = Some g ∧ options p = grey) →
  wf (set_layers (alter (λ ps, ps ++ [p]) g) s).
Proof.
  intros W Hg.
  assert (Hlook : ∀ i ps', alter (λ ps, ps ++ [p]) g (layers s) !! i = Some ps' →
            (i ≠ g ∧ layers s !! i = Some ps')
            ∨ (i = g ∧ ∃ ps, layers s !! g = Some ps ∧ ps' = ps ++ [p])).
  { intros i ps' H. destruct (decide (g = i)) as [<-|Hne].
    - rewrite list_lookup_alter_eq in H.
      destruct (layers s !! g) as [ps|]; [|discriminate].
      injection H as <-. right. split; [reflexivity|]. exists ps. auto.
    - rewrite list_lookup_alter_ne in H by exact Hne. left. auto. }
  assert (Hsg : shadowLayer s ≠ Some g).
  { destruct Hg as [[Hg _]|[Hg _]].
    - apply (wf_apart s W g Hg).
    - apply (wf_apart' s W g Hg). }
  split; cbn [layers streetLayer buildingLayer shadowLayer set_layers];
    rewrite ?length_alter.
  - apply (wf_street s W).
  - apply (wf_building s W).
  - apply (wf_shadow s W).
  - intros q Hq. apply elem_of_layerOf in Hq. destruct Hq as (i & ps' & Hi & Hl & Hq).
    cbn in Hi, Hl. apply Hlook in Hl. destruct Hl as [[_ Hl]|(-> & ps & Hl & ->)].
    + apply (wf_gold s W). apply elem_of_layerOf. exists i, ps'. auto.
    + apply elem_of_app in Hq. destruct Hq as [Hq|Hq].
      * apply (wf_gold s W). apply elem_of_layerOf. exists g, ps. auto.
      * apply list_elem_of_singleton in Hq. subst q.
        destruct Hg as [[_ Hp]|[Hb _]]; [exact Hp|].
        destruct (wf_apart s W g Hi) as [Hne _]. contradiction.
  - intros q Hq. apply elem_of_layerOf in Hq. destruct Hq as (i & ps' & Hi & Hl & Hq).
    cbn in Hi, Hl. apply Hlook in Hl. destruct Hl as [[_ Hl]|(-> & ps & Hl & ->)].
    + apply (wf_grey s W). apply elem_of_layerOf. exists i, ps'. auto.
    + apply elem_of_app in Hq. destruct Hq as [Hq|Hq].
      * apply (wf_grey s W). apply elem_of_layerOf. exists g, ps. auto.
      * apply list_elem_of_singleton in Hq. subst q.
        destruct Hg as [[Hst _]|[_ Hp]]; [|exact Hp].
        destruct (wf_apart s W g Hst) as [Hne _]. contradiction.
  - apply layerOf_nil. intros i ps' Hi Hl. cbn in Hi, Hl.
    apply Hlook in Hl. destruct Hl as [[_ Hl]|(-> & _)]; [|contradiction].
    exact (proj1 (layerOf_nil _ _) (wf_none s W) i ps' Hi Hl).
  - intros i ps' Hl Hne. apply Hlook in Hl.
    destruct Hl as [[_ Hl]|(-> & _)].
    + exact (wf_other s W i ps' Hl Hne).
    + destruct Hg as [[Hg _]|[Hg _]]; auto.
  - apply (wf_apart s W).
  - apply (wf_apart' s W).
Qed.

Lemma wf_log_shadow (v : Shadow) (s : State) : wf s → wf (log_shadow v s).
Proof. intros [? ? ? ? ? ? ? ? ?]. split; assumption. Qed.

Lemma streetPair_preserves (az w : num) (p1 p2 : num * num) :
  preserves wf (streetPair az w p1 p2).
Proof.
  intros s W. unfold streetPair.
  destruct (Num.lt (minDiff az p1 p2) (Fin 20)); [|exact W].
  rewrite bind_run. unfold gets. destruct (streetLayer s) as [g|] eqn:Hg; [|exact W].
  cbn. apply wf_add; [exact W|]. left. split; [exact Hg | reflexivity].
Qed.

Lemma streetWay_preserves (az w : num) (way : Element) :
  preserves wf (streetWay az w way).
Proof.
  unfold streetWay.
  destruct (geometry way) as [geom|]; [|intros s W; exact W].
  destruct (tags way) as [t|]; [|intros s W; exact W].
  destruct (negb _); [intros s W; exact W|].
  destruct (Nat.ltb _ _); [intros s W; exact W|].
  apply preserves_forEach. intros i.
  destruct (_ !! i); [|intros s W; exact W].
  destruct (_ !! S i); [|intros s W; exact W].
  apply streetPair_preserves.
Qed.

Lemma buildingFootprint_preserves (az alt : num) (b : Element) :
  preserves wf (buildingFootprint az alt b).
Proof.
  intros s W. unfold buildingFootprint.
  destruct (geometry b) as [geom|]; [|exact W].
  destruct (Nat.ltb _ _); [exact W|].
  rewrite bind_run. unfold gets.
  destruct (buildingLayer s) as [g|] eqn:Hg; rewrite bind_run; cbn; [|exact W].
  apply wf_log_shadow, wf_add; [exact W|]. right. split; [exact Hg | reflexivity].
Qed.

(** The invariant holds when the script is loaded and both drawing
    functions keep it, also when they end in an exception. *)
Lemma wf_drawStreets (env : Env) (lat lon hour : num) :
  preserves wf (drawStreets env lat lon hour).
Proof.
  intros s W.
  destruct (Num.le (altDegOf (sunAt env lat lon hour)) (Fin 0)) eqn:Halt.
  - rewrite (drawStreets_night env lat lon hour s Halt). apply wf_streetsReset, W.
  - rewrite (drawStreets_day env lat lon hour s Halt).
    assert (Hd : streetData s = streetData (streetsReset s))
      by (unfold streetsReset, cleared; destruct (streetLayer s); reflexivity).
    apply preserves_forEach; [intros way; apply streetWay_preserves|].
    apply wf_streetsReset, W.
Qed.

Lemma wf_drawBuildings (env : Env) (lat lon hour : num) :
  preserves wf (drawBuildings env lat lon hour).
Proof.
  intros s W.
  destruct (Num.le (altitude (sunAt env lat lon hour)) (Fin 0)) eqn:Halt.
  - rewrite (drawBuildings_night env lat lon hour s Halt). apply wf_buildingsReset, W.
  - rewrite (drawBuildings_day env lat lon hour s Halt).
    apply preserves_forEach; [intros b; apply buildingFootprint_preserves|].
    apply wf_buildingsReset, W.
Qed.

Lemma wf_updateScene (env : Env) (lat lon hour : num) :
  preserves wf (updateScene env lat lon hour).
Proof.
  unfold updateScene. apply preserves_bind; [apply wf_drawStreets|].
  intros _. apply wf_drawBuildings.
Qed.

(** C9: when the sun is at or below the horizon, [drawBuildings] returns
    with an empty building layer, and no polygon on the map is a building
    footprint. *)
Theorem no_footprints_at_night (env : Env) (lat lon hour : num) (s : State) :
  wf s →
  Num.le (altitude (sunAt env lat lon hour)) (Fin 0) = true →
  ∃ s', drawBuildings env lat lon hour s = (Normal tt, s')
        ∧ layerOf (buildingLayer s') s' = []
        ∧ ∀ p, p ∈ scene s' → options p ≠ grey.
Proof.
  intros W Halt. exists (buildingsReset s). split; [|split].
  - apply drawBuildings_night, Halt.
  - apply buildingsReset_layers.
  - intros p Hp. apply elem_of_scene in Hp. destruct Hp as (i & ps & Hl & Hp).
    apply buildingsReset_lookup in Hl. destruct Hl as [->|(Hnb & _ & Hl)].
    { apply elem_of_nil in Hp. contradiction. }
    assert (Hne : ps ≠ []) by (intros ->; apply elem_of_nil in Hp; contradiction).
    destruct (wf_other s W i ps Hl Hne) as [Hst|Hb]; [|contradiction].
    assert (Hgold : options p = gold).
    { apply (wf_gold s W). apply elem_of_layerOf. exists i, ps. auto. }
    rewrite Hgold. discriminate.
Qed.

Lemma wf_loaded (streets buildings : list Element) :
  wf (Sample.loaded streets buildings).
Proof.
  split; cbn; try discriminate; try reflexivity.
  - intros p H. apply elem_of_nil in H. contradiction.
  - intros p H. apply elem_of_nil in H. contradiction.
Qed.

(** By day the footprint is drawn. *)
Lemma footprint_by_day :
  layers (drawBuildings Sample.morning (Fin 48) (Fin 2) (Fin 8) Sample.town).2
  = [ [ {| latlngs := [(Fin 0, Fin 0); (Fin 0, Fin 1); (Fin 1, Fin 0)];
           options := grey |} ]; [] ].
Proof.
  rewrite drawBuildings_day; [reflexivity|].
  apply le_Fin_false. lra.
Qed.

Lemma no_footprints_at_night_witness :
  ∃ s', drawBuildings Sample.night (Fin 48) (Fin 2) (Fin 23)
          (drawBuildings Sample.morning (Fin 48) (Fin 2) (Fin 8) Sample.town).2
        = (Normal tt, s')
        ∧ layerOf (buildingLayer s') s' = []
        ∧ ∀ p, p ∈ scene s' → options p ≠ grey.
Proof.
  apply (no_footprints_at_night Sample.night (Fin 48) (Fin 2) (Fin 23)).
  - apply wf_drawBuildings, wf_loaded.
  - apply le_Fin. lra.
Defined.

End Reachable.

(** ** Building heights *)

Section Heights.
Local Open Scope R_scope.

Lemma truthyTag_Some (b : Element) (k v : string) :
  truthyTag b k = Some v ↔ hasTag b k v ∧ v ≠ "".
Proof.
  unfold truthyTag, hasTag. split.
  - destruct (tags b) as [t|]; [|discriminate]. cbn.
    destruct (t !! k) as [u|] eqn:E; [|discriminate]. cbn.
    destruct (String.eqb_spec u ""); [discriminate|].
    intros [= <-]. split; [exists t; auto | assumption].
  - intros [(t & -> & E) Hv]. cbn. rewrite E. cbn.
    destruct (String.eqb_spec v ""); [contradiction | reflexivity].
Qed.

Lemma truthyTag_None (b : Element) (k : string) :
  truthyTag b k = None ↔ ∀ v, hasTag b k v → v = "".
Proof.
  split.
  - intros HN v Hv. destruct (String.eqb_spec v "") as [|Hne]; [assumption|].
    assert (E : truthyTag b k = Some v) by (apply truthyTag_Some; auto).
    congruence.
  - intros H. destruct (truthyTag b k) as [v|] eqn:E; [|reflexivity].
    apply truthyTag_Some in E. destruct E as [Hv Hne]. apply H in Hv. contradiction.
Qed.

Lemma parseInt_4 : parseInt "4" = Fin 4.
Proof.
  unfold parseInt.
  replace (Parse.parseIntLit "4") with (Parse.Dec false 4 0) by (vm_compute; reflexivity).
  cbn [Parse.num_of_numeral powerRZ]. f_equal. lra.
Qed.

Lemma parseFloat_empty : parseFloat "" = NaN.
Proof. reflexivity. Qed.

Lemma estimateHeight_height (b : Element) (v : string) :
  hasTag b "building:height" v → v ≠ "" → estimateHeight b = parseFloat v.
Proof.
  intros Hv Hne. unfold estimateHeight.
  rewrite (proj2 (truthyTag_Some b "building:height" v) (conj Hv Hne)). reflexivity.
Qed.

Lemma estimateHeight_levels (b : Element) (v : string) :
  (∀ u, hasTag b "building:height" u → u = "") →
  hasTag b "building:levels" v → v ≠ "" →
  estimateHeight b = Num.mul (parseInt v) (Fin 3).
Proof.
  intros Hh Hv Hne. unfold estimateHeight.
  rewrite (proj2 (truthyTag_None b "building:height") Hh).
  rewrite (proj2 (truthyTag_Some b "building:levels" v) (conj Hv Hne)). reflexivity.
Qed.

Lemma estimateHeight_default (b : Element) :
  (∀ u, hasTag b "building:height" u → u = "") →
  (∀ u, hasTag b "building:levels" u → u = "") →
  estimateHeight b = Fin 10.
Proof.
  intros Hh Hl. unfold estimateHeight.
  rewrite (proj2 (truthyTag_None b "building:height") Hh).
  rewrite (proj2 (truthyTag_None b "building:levels") Hl). reflexivity.
Qed.

Lemma hasTag_building (t : gmap string string) (k v : string) :
  hasTag (Sample.building t) k v ↔ t !! k = Some v.
Proof.
  unfold hasTag. cbn. split.
  - intros (t' & [= <-] & H). exact H.
  - intros H. exists t. auto.
Qed.

Lemma parseFloat_7_5 : parseFloat "7.5" = Fin 7.5.
Proof.
  unfold parseFloat.
  replace (Parse.parseFloatLit "7.5") with (Parse.Dec false 75 (-1))
    by (vm_compute; reflexivity).
  cbn [Parse.num_of_numeral]. f_equal. simpl. lra.
Qed.

(** C6, the claim as stated fails: a footprint carries the tag
    [building:height] with an empty value and [building:levels] with the
    value 4; the height tag is present, it parses to [NaN], and yet the
    height is the 12 of the levels. *)
Lemma blank_height_uses_levels :
  hasTag Sample.blankLevels4 "building:height" ""
  ∧ estimateHeight Sample.blankLevels4 = Fin 12
  ∧ estimateHeight Sample.blankLevels4 ≠ parseFloat "".
Proof.
  assert (E : estimateHeight Sample.blankLevels4 = Fin 12).
  { rewrite (estimateHeight_levels Sample.blankLevels4 "4").
    - rewrite parseInt_4. cbn. f_equal. lra.
    - intros u Hu. apply hasTag_building in Hu. vm_compute in Hu. congruence.
    - apply hasTag_building. vm_compute. reflexivity.
    - discriminate. }
  split; [apply hasTag_building; vm_compute; reflexivity|].
  split; [exact E|]. rewrite E, parseFloat_empty. discriminate.
Qed.

(** C6, amended: a [building:height] tag with a non-empty value is parsed
    as a float and used; otherwise a [building:levels] tag with a non-empty
    value gives [parseInt] of it times 3, so that levels 4 give 12;
    otherwise the height is 10.  A footprint with both tags has the height
    of the height tag. *)
Theorem height_priority :
  (∀ b v, hasTag b "building:height" v → v ≠ "" → estimateHeight b = parseFloat v)
  ∧ (∀ b v, (∀ u, hasTag b "building:height" u → u = "") →
            hasTag b "building:levels" v → v ≠ "" →
            estimateHeight b = Num.mul (parseInt v) (Fin 3))
  ∧ (∀ b, (∀ u, hasTag b "building:height" u → u = "") →
          (∀ u, hasTag b "building:levels" u → u = "") →
          estimateHeight b = Fin 10)
  ∧ estimateHeight Sample.levels4 = Fin 12
  ∧ estimateHeight Sample.both = Fin 7.5
  ∧ estimateHeight Sample.untagged = Fin 10.
Proof.
  split; [exact estimateHeight_height|].
  split; [exact estimateHeight_levels|].
  split; [exact estimateHeight_default|].
  split; [|split].
  - rewrite (estimateHeight_levels Sample.levels4 "4").
    + rewrite parseInt_4. cbn. f_equal. lra.
    + intros u Hu. apply hasTag_building in Hu. vm_compute in Hu. discriminate.
    + apply hasTag_building. vm_compute. reflexivity.
    + discriminate.
  - rewrite (estimateHeight_height Sample.both "7.5").
    + apply parseFloat_7_5.
    + apply hasTag_building. vm_compute. reflexivity.
    + discriminate.
  - apply estimateHeight_default; intros u Hu; apply hasTag_building in Hu;
      vm_compute in Hu; discriminate.
Qed.

Lemma height_priority_witness :
  estimateHeight Sample.tall = parseFloat "tall"
  ∧ estimateHeight Sample.levels4 = Num.mul (parseInt "4") (Fin 3)
  ∧ estimateHeight Sample.blank = Fin 10.
Proof.
  destruct height_priority as (H1 & H2 & H3 & _).
  split; [|split].
  - apply (H1 Sample.tall "tall").
    + apply hasTag_building. vm_compute. reflexivity.
    + discriminate.
  - apply (H2 Sample.levels4 "4").
    + intros u Hu. apply hasTag_building in Hu. vm_compute in Hu. discriminate.
    + apply hasTag_building. vm_compute. reflexivity.
    + discriminate.
  - apply (H3 Sample.blank).
    + intros u Hu. apply hasTag_building in Hu. vm_compute in Hu. congruence.
    + intros u Hu. apply hasTag_building in Hu. vm_compute in Hu. discriminate.
Defined.

(** C10, the claim as stated fails: a footprint whose only tag is
    [building:height] with an empty value has the tag, the value parses to
    [NaN], and the height is the default 10, not [NaN]. *)
Lemma blank_height_uses_default :
  hasTag Sample.blank "building:height" ""
  ∧ parseFloat "" = NaN
  ∧ estimateHeight Sample.blank = Fin 10.
Proof.
  split; [apply hasTag_building; vm_compute; reflexivity|].
  split; [reflexivity|].
  apply estimateHeight_default; intros u Hu; apply hasTag_building in Hu;
    vm_compute in Hu; congruence.
Qed.

(** C10, amended: when the [building:height] tag is present with a
    non-empty value, the height is [parseFloat] of that value whatever the
    other tags are, so neither the levels nor the default 10 play a part;
    and when the value does not parse, the height and the shadow length
    are [NaN]. *)
Theorem height_tag_no_fallback (b : Element) (v : string) (az alt : num) :
  hasTag b "building:height" v → v ≠ "" →
  estimateHeight b = parseFloat v
  ∧ (∀ b', hasTag b' "building:height" v → estimateHeight b' = estimateHeight b)
  ∧ (parseFloat v = NaN →
     height (shadowOf az alt b) = NaN ∧ shadowLen (shadowOf az alt b) = NaN).
Proof.
  intros Hv Hne.
  assert (E : estimateHeight b = parseFloat v) by (apply estimateHeight_height; assumption).
  split; [exact E|]. split.
  - intros b' Hv'. rewrite E. apply estimateHeight_height; assumption.
  - intros HN. unfold shadowOf, shadowLength. cbn [height shadowLen].
    rewrite E, HN. split; reflexivity.
Qed.

Lemma height_tag_no_fallback_witness :
  estimateHeight Sample.tall = parseFloat "tall"
  ∧ (∀ b', hasTag b' "building:height" "tall" →
           estimateHeight b' = estimateHeight Sample.tall)
  ∧ (parseFloat "tall" = NaN →
     height (shadowOf (Fin 1) (Fin 1) Sample.tall) = NaN
     ∧ shadowLen (shadowOf (Fin 1) (Fin 1) Sample.tall) = NaN).
Proof.
  apply (height_tag_no_fallback Sample.tall "tall" (Fin 1) (Fin 1)).
  - apply hasTag_building. vm_compute. reflexivity.
  - discriminate.
Defined.

End Heights.

(** ** A pair of zero length *)

Section ZeroLength.
Local Open Scope R_scope.

Lemma Rmin_abs_0 : Rmin (Rabs (0 - 0)) (360 - Rabs (0 - 0)) < 20.
Proof.
  replace (0 - 0) with 0 by ring. rewrite Rabs_R0.
  unfold Rmin. destruct (Rle_dec 0 (360 - 0)); lra.
Qed.

Lemma azimuthDeg_north (alt : num) :
  azimuthDegOf {| azimuth := Num.PI; altitude := alt |} = Fin 0.
Proof.
  unfold Num.PI. rewrite azimuthDegOf_Fin.
  replace (PI * 180 / PI + 180) with 360 by (field; apply PI_neq0).
  apply rem_360_360.
Qed.

Lemma altDeg_one_radian (az : num) :
  Num.le (altDegOf {| azimuth := az; altitude := Fin 1 |}) (Fin 0) = false.
Proof.
  unfold altDegOf. cbn [altitude Num.mul]. rewrite div_PI. apply le_Fin_false.
  pose proof PI_RGT_0.
  apply Rmult_lt_0_compat; [lra | apply Rinv_0_lt_compat; lra].
Qed.

(** C3, what the code does: a way whose two points coincide is not
    skipped.  With the sun due north its pair passes the test [minDiff <
    20], the segment length is 0, and the polygon put on the map has [NaN]
    for every coordinate. *)
Theorem zero_length_pair_draws_NaN :
  drawStreets Sample.north (Fin 48.8566) (Fin 2.3522) (Fin 12) Sample.stub
  = (Normal tt,
     {| layers := [[ {| latlngs := [(NaN, NaN); (NaN, NaN); (NaN, NaN); (NaN, NaN)];
                        options := gold |} ]];
        streetData := [Sample.way2 Sample.paris Sample.paris];
        buildingData := [];
        streetLayer := Some 0%nat; buildingLayer := None; shadowLayer := None;
        shadows := [] |}).
Proof.
  rewrite drawStreets_day by apply altDeg_one_radian.
  change (sunAt Sample.north (Fin 48.8566) (Fin 2.3522) (Fin 12))
    with {| azimuth := Num.PI; altitude := Fin 1 |}.
  rewrite azimuthDeg_north.
  change (streetData Sample.stub) with [Sample.way2 Sample.paris Sample.paris].
  cbn [forEach]. rewrite bind_run.
  rewrite (streetWay_accepted (Fin 0) (Fin 6) (Sample.way2 Sample.paris Sample.paris)
             {[ "highway" := "residential" ]} [Sample.paris; Sample.paris] 0
             (streetsReset Sample.stub));
    [|reflexivity|reflexivity|vm_compute; reflexivity|cbn; lia|reflexivity].
  change (pairs ((λ pt, (lat pt, lon pt)) <$> [Sample.paris; Sample.paris]))
    with [(corner (48.8566, 2.3522), corner (48.8566, 2.3522))].
  cbn [List.filter]. rewrite (isLit_degenerate _ 0 Rmin_abs_0).
  change (litPolygon (Fin 6) <$> [(corner (48.8566, 2.3522), corner (48.8566, 2.3522))])
    with [{| latlngs := litQuad (Fin 6) (corner (48.8566, 2.3522)) (corner (48.8566, 2.3522));
             options := gold |}].
  rewrite litQuad_degenerate. reflexivity.
Qed.

End ZeroLength.

(** * More of the script *)

(** ** What one pass draws *)

Section Passes.

Lemma footprint_latlngs (geom : list Pt) :
  (λ p : num * num, (p.2, p.1)) <$> ((λ pt, (lon pt, lat pt)) <$> geom)
  = (λ pt, (lat pt, lon pt)) <$> geom.
Proof. rewrite <- list_fmap_compose. reflexivity. Qed.

Lemma buildingFootprint_run (az alt : num) (b : Element) (g : nat) (s : State) :
  buildingLayer s = Some g →
  buildingFootprint az alt b s
  = (Normal tt,
     if drawable b
     then log_shadow (shadowOf az alt b)
            (set_layers (alter (λ ps, ps ++ [footprintOf b]) g) s)
     else s).
Proof.
  intros Hg. unfold buildingFootprint, drawable, footprintOf.
  destruct (geometry b) as [geom|]; [|reflexivity].
  destruct (length geom <? 3)%nat; [reflexivity|]. cbn [negb default].
  rewrite bind_run. unfold gets. rewrite Hg, footprint_latlngs. reflexivity.
Qed.

(** The loop of [drawBuildings]: one footprint and one shadow record for
    each building that is drawn, in order. *)
Lemma buildings_run (az alt : num) (g : nat) (bs : list Element) :
  ∀ s, buildingLayer s = Some g →
    forEach (buildingFootprint az alt) bs s
    = (Normal tt,
       {| layers := alter (λ ps, ps ++ (footprintOf <$> List.filter drawable bs)) g (layers s);
          streetData := streetData s; buildingData := buildingData s;
          streetLayer := streetLayer s; buildingLayer := buildingLayer s;
          shadowLayer := shadowLayer s;
          shadows := shadows s ++ (shadowOf az alt <$> List.filter drawable bs) |}).
Proof.
  induction bs as [|b bs IH]; intros s Hg.
  - cbn. destruct s. cbn. f_equal. f_equal.
    + symmetry. apply list_alter_id. intros ps. apply app_nil_r.
    + symmetry. apply app_nil_r.
  - cbn [forEach List.filter]. rewrite bind_run, (buildingFootprint_run az alt b g s Hg).
    destruct (drawable b).
    + rewrite IH by exact Hg. cbn. f_equal. f_equal.
      * rewrite list_alter_alter_eq. apply list_alter_ext; [|reflexivity].
        intros ps _. unfold compose. rewrite <- app_assoc. reflexivity.
      * rewrite <- app_assoc. reflexivity.
    + apply IH, Hg.
Qed.

Lemma cleared_layers (g : option nat) (s : State) :
  layers (cleared g s) = match g with Some i => <[i := []]> (layers s) | None => layers s end.
Proof. destruct g; reflexivity. Qed.

Lemma drawBuildings_run (env : Env) (lat lon hour : num) (s : State) :
  drawBuildings env lat lon hour s
  = (Normal tt,
     buildingsDrawn (buildingPolys env lat lon hour (buildingData s))
       (buildingShadows env lat lon hour (buildingData s)) s).
Proof.
  unfold buildingPolys, buildingShadows.
  destruct (Num.le (altitude (sunAt env lat lon hour)) (Fin 0)) eqn:Halt.
  - rewrite (drawBuildings_night env lat lon hour s Halt). f_equal.
    unfold buildingsReset, buildingsDrawn, cleared, set_shadowLayer,
      set_buildingLayer, set_layers.
    destruct s as [ls sd bd gst [gB|] [gS|] sh]; cbn;
      rewrite ?length_app, ?length_insert, <- ?app_assoc, ?app_nil_r;
      cbn; rewrite ?Nat.add_1_r; reflexivity.
  - rewrite (drawBuildings_day env lat lon hour s Halt).
    set (az := azimuth (sunAt env lat lon hour)).
    set (alt := altitude (sunAt env lat lon hour)).
    assert (Hd : buildingData (buildingsReset s) = buildingData s)
      by (destruct s as [ls sd bd gst [gB|] [gS|] sh]; reflexivity).
    rewrite <- Hd.
    rewrite (buildings_run az alt (length (layers s)));
      [|apply buildingsReset_layers].
    f_equal. rewrite Hd. unfold buildingsDrawn.
    set (F := footprintOf <$> List.filter drawable (buildingData s)).
    assert (L : length (layers (cleared (shadowLayer s) (cleared (buildingLayer s) s)))
                = length (layers s)) by (rewrite !cleared_length; reflexivity).
    assert (E : layers (buildingsReset s)
                = layers (cleared (shadowLayer s) (cleared (buildingLayer s) s)) ++ [[]; []]).
    { destruct s as [ls sd bd gst [gB|] [gS|] sh]; cbn; rewrite <- app_assoc; reflexivity. }
    rewrite E. rewrite <- L at 1.
    rewrite <- (Nat.add_0_r (length _)), alter_app_r. cbn [alter list_alter app].
    destruct (buildingsReset_layers s) as (Hb & Hsh & Hst & _ & _ & Hshd).
    assert (Hsd : streetData (buildingsReset s) = streetData s)
      by (destruct s as [ls sd bd gst [gB|] [gS|] sh]; reflexivity).
    rewrite Hb, Hsh, Hst, Hshd, Hsd. reflexivity.
Qed.

Lemma streetWay_run (az w : num) (way : Element) (g : nat) (s : State) :
  tagged way → streetLayer s = Some g →
  streetWay az w way s
  = (Normal tt, set_layers (alter (λ qs, qs ++ wayQuads az w way) g) s).
Proof.
  intros Ht Hg.
  assert (Hid : (Normal tt, s)
                = (Normal tt, set_layers (alter (λ qs : list Polygon, qs ++ []) g) s)).
  { f_equal. symmetry. apply set_layers_id, list_alter_id. intros qs. apply app_nil_r. }
  unfold tagged in Ht. unfold wayQuads.
  destruct (geometry way) as [geom|] eqn:Hgeom;
    [|unfold streetWay; rewrite Hgeom; exact Hid].
  destruct (tags way) as [t|] eqn:Htags; [|destruct (Ht (mk_is_Some _ _ eq_refl)); discriminate].
  destruct (includes mainRoads (t !! "highway")) eqn:Hin.
  - destruct (Nat.leb_spec 2 (length geom)) as [Hlen|Hlen]; cbn [andb].
    + apply (streetWay_accepted az w way t geom g s); assumption.
    + unfold streetWay. rewrite Hgeom, Htags, Hin. cbn [negb]. rewrite length_fmap.
      destruct (Nat.ltb_spec (length geom) 2); [exact Hid | lia].
  - unfold streetWay. rewrite Hgeom, Htags, Hin. exact Hid.
Qed.

(** The loop of [drawStreets] over ways whose tags can be read. *)
Lemma streetWays_run (az w : num) (g : nat) (ways : list Element) :
  Forall tagged ways →
  ∀ s, streetLayer s = Some g →
    forEach (streetWay az w) ways s
    = (Normal tt,
       set_layers (alter (λ qs, qs ++ concat (wayQuads az w <$> ways)) g) s).
Proof.
  induction 1 as [|way ways Ht _ IH]; intros s Hg.
  - cbn. f_equal. symmetry. apply set_layers_id, list_alter_id.
    intros qs. apply app_nil_r.
  - cbn [forEach]. rewrite bind_run, (streetWay_run az w way g s Ht Hg).
    rewrite IH by exact Hg. f_equal. unfold set_layers. cbn. f_equal.
    rewrite list_alter_alter_eq. apply list_alter_ext; [|reflexivity].
    intros qs _. unfold compose. rewrite <- app_assoc. reflexivity.
Qed.

Lemma streetsReset_drawn (s : State) : streetsReset s = streetsDrawn [] s.
Proof.
  unfold streetsReset, streetsDrawn, set_streetLayer, set_layers. cbn.
  rewrite cleared_length.
  destruct s as [ls sd bd [g|] gB gS sh]; reflexivity.
Qed.

(** Adding to the street layer just made. *)
Lemma streetsDrawn_add (ps : list Polygon) (s : State) :
  set_layers (alter (λ qs, qs ++ ps) (length (layers s))) (streetsReset s)
  = streetsDrawn ps s.
Proof.
  rewrite streetsReset_drawn.
  unfold streetsDrawn, set_streetLayer, set_layers. cbn. f_equal.
  rewrite <- (cleared_length (streetLayer s) s) at 1.
  rewrite <- (Nat.add_0_r (length _)), alter_app_r. reflexivity.
Qed.

Lemma drawStreets_run (env : Env) (lat lon hour : num) (s : State) :
  Forall tagged (streetData s) →
  drawStreets env lat lon hour s
  = (Normal tt, streetsDrawn (streetPolys env lat lon hour (streetData s)) s).
Proof.
  intros Ht. unfold streetPolys.
  destruct (Num.le (altDegOf (sunAt env lat lon hour)) (Fin 0)) eqn:Halt.
  - rewrite (drawStreets_night env lat lon hour s Halt), streetsReset_drawn. reflexivity.
  - rewrite (drawStreets_day env lat lon hour s Halt).
    rewrite (streetWays_run _ _ (length (layers s)) _ Ht);
      [|apply streetsReset_street].
    rewrite streetsDrawn_add. reflexivity.
Qed.

Lemma updateScene_run (env : Env) (lat lon hour : num) (s : State) :
  Forall tagged (streetData s) →
  updateScene env lat lon hour s
  = (Normal tt,
     buildingsDrawn (buildingPolys env lat lon hour (buildingData s))
       (buildingShadows env lat lon hour (buildingData s))
       (streetsDrawn (streetPolys env lat lon hour (streetData s)) s)).
Proof.
  intros Ht. unfold updateScene. rewrite bind_run, (drawStreets_run env lat lon hour s Ht).
  rewrite drawBuildings_run. reflexivity.
Qed.

Lemma cleared_app (g : option nat) (s s0 : State) (ps : list Polygon) :
  layers s0 = layers s ++ [ps] →
  (∀ i, g = Some i → i < length (layers s)) →
  layers (cleared g s0) = layers (cleared g s) ++ [ps].
Proof.
  intros E Hi. rewrite !cleared_layers, E.
  destruct g as [i|]; [|reflexivity].
  apply insert_app_l, Hi. reflexivity.
Qed.

Lemma concat_all_nil {A : Type} (l : list (list A)) :
  (∀ i x, l !! i = Some x → x = []) → concat l = [].
Proof.
  induction l as [|x l IH]; intros H; [reflexivity|].
  cbn. rewrite (H 0 x eq_refl). apply IH. intros i y Hy. exact (H (S i) y Hy).
Qed.

(** In a state of the script, emptying the three layers empties the map. *)
Lemma wf_cleared_all (s : State) :
  wf s →
  concat (layers (cleared (shadowLayer s)
                    (cleared (buildingLayer s) (cleared (streetLayer s) s)))) = [].
Proof.
  intros W. apply concat_all_nil. intros i ps H.
  apply cleared_lookup in H. destruct H as [[_ ->]|[_ H]]; [reflexivity|].
  apply cleared_lookup in H. destruct H as [[_ ->]|[Hb H]]; [reflexivity|].
  apply cleared_lookup in H. destruct H as [[_ ->]|[Hst H]]; [reflexivity|].
  destruct ps as [|p ps]; [reflexivity|].
  assert (Hb' : buildingLayer s ≠ Some i)
    by (destruct (streetLayer s); exact Hb).
  destruct (wf_other s W i (p :: ps) H); [discriminate|contradiction|contradiction].
Qed.

Lemma updateScene_layers (ps fs : list Polygon) (vs : list Shadow) (s : State) :
  wf s →
  layers (buildingsDrawn fs vs (streetsDrawn ps s))
  = layers (cleared (shadowLayer s)
              (cleared (buildingLayer s) (cleared (streetLayer s) s))) ++ [ps; fs; []].
Proof.
  intros W. unfold buildingsDrawn. cbn [layers].
  set (s1 := streetsDrawn ps s).
  assert (Hb : buildingLayer s1 = buildingLayer s) by reflexivity.
  assert (Hs : shadowLayer s1 = shadowLayer s) by reflexivity.
  assert (E1 : layers s1 = layers (cleared (streetLayer s) s) ++ [ps]) by reflexivity.
  rewrite Hs, Hb.
  assert (E2 : layers (cleared (buildingLayer s) s1)
               = layers (cleared (buildingLayer s) (cleared (streetLayer s) s)) ++ [ps]).
  { apply cleared_app; [exact E1|]. intros i Hi. rewrite cleared_length.
    exact (wf_building s W i Hi). }
  rewrite (cleared_app (shadowLayer s) _ _ ps E2).
  - rewrite <- app_assoc. reflexivity.
  - intros i Hi. rewrite !cleared_length. exact (wf_shadow s W i Hi).
Qed.

Lemma updateScene_scene (ps fs : list Polygon) (vs : list Shadow) (s : State) :
  wf s → scene (buildingsDrawn fs vs (streetsDrawn ps s)) = ps ++ fs.
Proof.
  intros W. unfold scene. rewrite (updateScene_layers ps fs vs s W).
  rewrite concat_app, (wf_cleared_all s W). cbn. rewrite !app_nil_r. reflexivity.
Qed.

Lemma buildingsDrawn_layers (fs : list Polygon) (vs : list Shadow) (s : State) :
  layerOf (buildingLayer (buildingsDrawn fs vs s)) (buildingsDrawn fs vs s) = fs
  ∧ layerOf (shadowLayer (buildingsDrawn fs vs s)) (buildingsDrawn fs vs s) = []
  ∧ length (layers (buildingsDrawn fs vs s)) = (length (layers s) + 2)%nat.
Proof.
  assert (L : length (layers (cleared (shadowLayer s) (cleared (buildingLayer s) s)))
              = length (layers s)) by (rewrite !cleared_length; reflexivity).
  unfold buildingsDrawn, layerOf. cbn [layers buildingLayer shadowLayer].
  split; [|split].
  - rewrite lookup_app_r by (rewrite L; lia). rewrite L, Nat.sub_diag. reflexivity.
  - rewrite lookup_app_r by (rewrite L; lia).
    rewrite L. replace (S (length (layers s)) - length (layers s))%nat with 1%nat by lia.
    reflexivity.
  - rewrite length_app, L. reflexivity.
Qed.

(** X1: [drawBuildings] never throws, whatever the state and the data
    (missing tags and geometries included).  It ends with a new building
    layer holding, by day, one grey polygon per building of three points or
    more, in the order of [buildingData] and with corners in [[lat, lon]]
    order, and nothing at night; with a new, empty shadow layer; with one
    shadow record added per drawn building; and with two more layer groups
    on the map than before. *)
Theorem drawBuildings_completes (env : Env) (lat lon hour : num) (s : State) :
  ∃ s', drawBuildings env lat lon hour s = (Normal tt, s')
        ∧ layerOf (buildingLayer s') s' = buildingPolys env lat lon hour (buildingData s)
        ∧ layerOf (shadowLayer s') s' = []
        ∧ shadows s' = shadows s ++ buildingShadows env lat lon hour (buildingData s)
        ∧ length (layers s') = (length (layers s) + 2)%nat
        ∧ streetLayer s' = streetLayer s
        ∧ streetData s' = streetData s ∧ buildingData s' = buildingData s.
Proof.
  eexists. split; [apply drawBuildings_run|].
  destruct (buildingsDrawn_layers (buildingPolys env lat lon hour (buildingData s))
              (buildingShadows env lat lon hour (buildingData s)) s) as (H1 & H2 & H3).
  repeat split; assumption || reflexivity.
Qed.

(** X4: with the sun at or below the horizon, [updateScene] clears the
    map: in every state of the script, whatever the data, it completes
    normally and leaves no polygon on display; the three old layer groups
    stay on the map, emptied, next to three new empty ones, and no shadow
    is computed. *)
Theorem updateScene_night_clears (env : Env) (lat lon hour : num) (s : State) :
  wf s →
  Num.le (altitude (sunAt env lat lon hour)) (Fin 0) = true →
  ∃ s', updateScene env lat lon hour s = (Normal tt, s')
        ∧ scene s' = []
        ∧ length (layers s') = (length (layers s) + 3)%nat
        ∧ shadows s' = shadows s.
Proof.
  intros W Halt.
  exists (buildingsDrawn [] [] (streetsDrawn [] s)). split; [|split; [|split]].
  - unfold updateScene. rewrite bind_run.
    rewrite (drawStreets_night env lat lon hour s (altDeg_nonpos _ Halt)).
    rewrite streetsReset_drawn, drawBuildings_run.
    unfold buildingPolys, buildingShadows. rewrite Halt. reflexivity.
  - apply (updateScene_scene [] [] [] s W).
  - rewrite (updateScene_layers _ _ _ s W), length_app, !cleared_length. reflexivity.
  - cbn. apply app_nil_r.
Qed.

Lemma updateScene_night_clears_witness :
  ∃ s', updateScene Sample.night (Fin 48) (Fin 2) (Fin 23)
          (drawBuildings Sample.morning (Fin 48) (Fin 2) (Fin 7) Sample.town).2
        = (Normal tt, s')
        ∧ scene s' = []
        ∧ length (layers s')
          = (length (layers (drawBuildings Sample.morning (Fin 48) (Fin 2) (Fin 7)
                               Sample.town).2) + 3)%nat
        ∧ shadows s'
          = shadows (drawBuildings Sample.morning (Fin 48) (Fin 2) (Fin 7) Sample.town).2.
Proof.
  apply (updateScene_night_clears Sample.night (Fin 48) (Fin 2) (Fin 23)).
  - apply wf_drawBuildings, wf_loaded.
  - apply le_Fin. lra.
Defined.

(** X5: the two guards agree.  [drawStreets] tests the altitude in degrees
    and [drawBuildings] the altitude in radians, and for every Number,
    [NaN] and the infinities included, the two tests have the same
    outcome: both functions return early or neither does. *)
Theorem guards_agree (sunPos : SunPos) :
  Num.le (altDegOf sunPos) (Fin 0) = Num.le (altitude sunPos) (Fin 0).
Proof.
  unfold altDegOf. pose proof PI_RGT_0 as Hpi.
  destruct (altitude sunPos) as [a| | |].
  - cbn [Num.mul]. rewrite div_PI. apply Bool.eq_iff_eq_true. rewrite !le_Fin.
    assert (E : (a * 180 / PI = 180 * / PI * a)%R) by (field; lra). rewrite E.
    assert (0 < 180 * / PI)%R
      by (apply Rmult_lt_0_compat; [lra | apply Rinv_0_lt_compat; lra]).
    split; intros; nra.
  - cbn [Num.mul Num.sgn_of]. rewrite Rsgn_pos by lra. cbn.
    destruct (Req_dec_T PI 0); [lra|]. rewrite Rsgn_pos by lra. reflexivity.
  - cbn [Num.mul Num.sgn_of]. rewrite Rsgn_pos by lra. cbn.
    destruct (Req_dec_T PI 0); [lra|]. rewrite Rsgn_pos by lra. reflexivity.
  - reflexivity.
Qed.

End Passes.

(** ** Storing the answer of a fetch *)

Section Fetch.

Lemma isBuilding_state (e : Element) (s : State) : (isBuilding e s).2 = s.
Proof.
  unfold isBuilding. destruct (truthyTag e "building"); [|reflexivity].
  destruct (geometry e); reflexivity.
Qed.

Lemma isBuilding_measurable (e : Element) (s : State) :
  measurable e → isBuilding e s = (Normal (keptBuilding e), s).
Proof.
  unfold measurable, isBuilding, keptBuilding, drawable. intros Hm.
  destruct (truthyTag e "building") as [v|]; [|reflexivity].
  destruct (Hm (mk_is_Some _ _ eq_refl)) as [geom ->].
  rewrite (Nat.leb_antisym (length geom) 3). reflexivity.
Qed.

Lemma isBuilding_hollow (e : Element) (s : State) :
  ¬ measurable e → isBuilding e s = (Throw, s).
Proof.
  unfold measurable, isBuilding. intros Hn.
  destruct (truthyTag e "building") as [v|].
  - destruct (geometry e) as [geom|]; [|reflexivity].
    exfalso. apply Hn. intros _. eexists. reflexivity.
  - exfalso. apply Hn. intros [x Hx]. discriminate.
Qed.

Lemma filterJS_measurable (es : list Element) (s : State) :
  Forall measurable es →
  filterJS isBuilding es s = (Normal (List.filter keptBuilding es), s).
Proof.
  induction 1 as [|e es He _ IH]; [reflexivity|].
  cbn [filterJS List.filter]. rewrite bind_run, (isBuilding_measurable e s He).
  rewrite bind_run, IH. reflexivity.
Qed.

Lemma filterJS_hollow (before after : list Element) (e : Element) (s : State) :
  Forall measurable before → ¬ measurable e →
  filterJS isBuilding (before ++ e :: after) s = (Throw, s).
Proof.
  intros Hb He. induction Hb as [|x before Hx _ IH].
  - cbn [app filterJS]. rewrite bind_run, (isBuilding_hollow e s He). reflexivity.
  - cbn [app filterJS]. rewrite bind_run, (isBuilding_measurable x s Hx).
    rewrite bind_run, IH. reflexivity.
Qed.

(** The second filter either throws or keeps the buildings to keep; it
    never touches the state. *)
Lemma measurable_dec (e : Element) : measurable e ∨ ¬ measurable e.
Proof.
  unfold measurable. destruct (geometry e) as [geom|].
  - left. intros _. eexists. reflexivity.
  - destruct (truthyTag e "building") as [v|].
    + right. intros H. destruct H as [x Hx]; [eexists; reflexivity | discriminate].
    + left. intros [x Hx]. discriminate.
Qed.

Lemma filterJS_cases (es : list Element) (s : State) :
  filterJS isBuilding es s = (Throw, s)
  ∨ filterJS isBuilding es s = (Normal (List.filter keptBuilding es), s).
Proof.
  induction es as [|e es IH]; [right; reflexivity|].
  cbn [filterJS List.filter]. rewrite bind_run.
  destruct (measurable_dec e) as [He|He].
  - rewrite (isBuilding_measurable e s He), bind_run.
    destruct IH as [-> | ->]; [left|right]; reflexivity.
  - rewrite (isBuilding_hollow e s He). left. reflexivity.
Qed.

Lemma updateData_run (env : Env) (elements : list Element) (lat lon hour : num) (s : State) :
  Forall measurable elements →
  updateData env elements lat lon hour s
  = updateScene env lat lon hour
      (set_buildingData (List.filter keptBuilding elements)
         (set_streetData (List.filter isStreet elements) s)).
Proof.
  intros Hm. unfold updateData. rewrite bind_run. cbn [modify].
  rewrite bind_run, (filterJS_measurable elements _ Hm). reflexivity.
Qed.

Lemma isStreet_tagged (e : Element) : isStreet e = true → tagged e.
Proof.
  unfold isStreet, truthyTag, tagged. intros H _.
  destruct (tags e) as [t|]; [eexists; reflexivity | discriminate].
Qed.

Lemma filter_Forall {A : Type} (f : A → bool) (l : list A) :
  Forall (λ x, f x = true) (List.filter f l).
Proof.
  apply Forall_forall. intros x Hx. apply list_elem_of_In, filter_In in Hx. apply Hx.
Qed.

Lemma filter_isStreet_tagged (es : list Element) :
  Forall tagged (List.filter isStreet es).
Proof.
  eapply Forall_impl; [apply filter_Forall|]. intros e. apply isStreet_tagged.
Qed.

Lemma keptBuilding_ok (e : Element) :
  keptBuilding e = true → is_Some (truthyTag e "building") ∧ drawable e = true.
Proof.
  unfold keptBuilding. destruct (truthyTag e "building"); [|discriminate].
  intros H. split; [eexists; reflexivity | exact H].
Qed.

Lemma filter_idem {A : Type} (f g : A → bool) (l : list A) :
  (∀ x, f x = true → g x = true) →
  List.filter g (List.filter f l) = List.filter f l.
Proof.
  intros H. induction l as [|x l IH]; [reflexivity|].
  cbn. destruct (f x) eqn:E; [|exact IH].
  cbn. rewrite (H x E), IH. reflexivity.
Qed.

(** X6: what [updateData] stores.  However it ends, [streetData] is
    afterwards the fetched elements with a non-empty [highway] tag, in the
    order of the answer.  When every element tagged as a building has a
    geometry, [buildingData] is afterwards the elements with a non-empty
    [building] tag and three points or more, in the order of the answer,
    and each of them passes the length guard of [drawBuildings]. *)
Theorem updateData_stores (env : Env) (elements : list Element)
    (lat lon hour : num) (s : State) :
  streetData (updateData env elements lat lon hour s).2 = List.filter isStreet elements
  ∧ (Forall measurable elements →
     buildingData (updateData env elements lat lon hour s).2
     = List.filter keptBuilding elements
     ∧ List.filter drawable (List.filter keptBuilding elements)
       = List.filter keptBuilding elements).
Proof.
  split.
  - unfold updateData. rewrite bind_run. cbn [modify]. rewrite bind_run.
    destruct (filterJS_cases elements (set_streetData (List.filter isStreet elements) s))
      as [-> | ->]; [reflexivity|].
    rewrite bind_run. cbn [modify].
    rewrite updateScene_run by apply filter_isStreet_tagged. reflexivity.
  - intros Hm. split.
    + rewrite (updateData_run env elements lat lon hour s Hm).
      rewrite updateScene_run by apply filter_isStreet_tagged. reflexivity.
    + apply filter_idem. intros e He. apply keptBuilding_ok, He.
Qed.

Lemma updateData_stores_witness :
  buildingData (updateData Sample.morning Fixture.answer (Fin 48) (Fin 2) (Fin 8) initial).2
  = List.filter keptBuilding Fixture.answer
  ∧ List.filter drawable (List.filter keptBuilding Fixture.answer)
    = List.filter keptBuilding Fixture.answer.
Proof.
  apply (proj2 (updateData_stores Sample.morning Fixture.answer (Fin 48) (Fin 2) (Fin 8)
                  initial)).
  repeat constructor; intros _; eexists; reflexivity.
Defined.

(** X7: when a fetched element is tagged as a building and has no
    geometry, reading [e.geometry.length] throws in the second filter:
    [updateData] ends with an exception after it has replaced [streetData]
    and before it replaces [buildingData] or redraws anything, so the new
    streets are stored next to the old buildings and the old scene. *)
Theorem updateData_stops_at_hollow (env : Env) (before after : list Element)
    (e : Element) (lat lon hour : num) (s : State) :
  Forall measurable before → ¬ measurable e →
  updateData env (before ++ e :: after) lat lon hour s
  = (Throw, set_streetData (List.filter isStreet (before ++ e :: after)) s).
Proof.
  intros Hb He. unfold updateData. rewrite bind_run. cbn [modify].
  rewrite bind_run, (filterJS_hollow before after e _ Hb He). reflexivity.
Qed.

Lemma updateData_stops_at_hollow_witness :
  updateData Sample.morning ([Fixture.road] ++ Fixture.hollow :: [Fixture.house])
    (Fin 48) (Fin 2) (Fin 8) initial
  = (Throw,
     set_streetData
       (List.filter isStreet ([Fixture.road] ++ Fixture.hollow :: [Fixture.house])) initial).
Proof.
  apply (updateData_stops_at_hollow Sample.morning [Fixture.road] [Fixture.house]
           Fixture.hollow).
  - repeat constructor; intros _; eexists; reflexivity.
  - intros H. destruct H as [x Hx]; [eexists; vm_compute; reflexivity | discriminate].
Defined.

End Fetch.

(** ** The states the page reaches *)

Section Page.

Lemma updateScene_dataOk (env : Env) (lat lon hour : num) :
  preserves dataOk (updateScene env lat lon hour).
Proof.
  intros s [Hst Hb]. rewrite updateScene_run.
  - split; assumption.
  - eapply Forall_impl; [exact Hst|]. intros e. apply isStreet_tagged.
Qed.

Lemma updateData_wf (env : Env) (elements : list Element) (lat lon hour : num) :
  preserves wf (updateData env elements lat lon hour).
Proof.
  intros s W. unfold updateData. rewrite bind_run. cbn [modify]. rewrite bind_run.
  set (s1 := set_streetData (List.filter isStreet elements) s).
  assert (W1 : wf s1) by (destruct W; split; assumption).
  destruct (filterJS_cases elements s1) as [-> | ->]; [exact W1|].
  rewrite bind_run. cbn [modify].
  apply wf_updateScene. destruct W1; split; assumption.
Qed.

Lemma updateData_dataOk (env : Env) (elements : list Element) (lat lon hour : num) :
  preserves dataOk (updateData env elements lat lon hour).
Proof.
  intros s [Hst Hb]. unfold updateData. rewrite bind_run. cbn [modify]. rewrite bind_run.
  set (s1 := set_streetData (List.filter isStreet elements) s).
  destruct (filterJS_cases elements s1) as [-> | ->].
  - split; [apply filter_Forall | exact Hb].
  - rewrite bind_run. cbn [modify]. apply updateScene_dataOk. split.
    + apply filter_Forall.
    + eapply Forall_impl; [apply filter_Forall|]. intros e. apply keptBuilding_ok.
Qed.

Lemma reachable_wf (s : State) : reachable s → wf s.
Proof.
  induction 1 as [|env ev s _ IH]; [apply wf_initial|].
  destruct ev; cbn [handle]; first [apply updateData_wf | apply wf_updateScene]; exact IH.
Qed.

Lemma reachable_dataOk (s : State) : reachable s → dataOk s.
Proof.
  induction 1 as [|env ev s _ IH]; [split; constructor|].
  destruct ev; cbn [handle];
    first [apply updateData_dataOk | apply updateScene_dataOk]; exact IH.
Qed.

(** X8: in every state the page reaches, through any sequence of fetch
    answers and slider moves, thrown exceptions included, the layer
    variables that are set refer to existing, pairwise different groups,
    the street layer
    holds gold polygons only, the building layer grey ones only, the shadow
    layer and every older group are empty; every stored street has a
    non-empty [highway] tag and every stored building a non-empty
    [building] tag and a geometry of three points or more. *)
Theorem reachable_invariant (s : State) : reachable s → wf s ∧ dataOk s.
Proof.
  induction 1 as [|env ev s _ [IHw IHd]].
  - split; [apply wf_initial | split; constructor].
  - destruct ev; cbn [handle]; split;
      first [ apply updateData_wf; exact IHw
            | apply wf_updateScene; exact IHw
            | apply updateData_dataOk; exact IHd
            | apply updateScene_dataOk; exact IHd ].
Qed.

Lemma reachable_invariant_witness :
  wf (handle Sample.night (SliderInput "23" (Fin 48) (Fin 2))
        (handle Sample.morning (InitialFetch Fixture.answer) initial).2).2
  ∧ dataOk (handle Sample.night (SliderInput "23" (Fin 48) (Fin 2))
              (handle Sample.morning (InitialFetch Fixture.answer) initial).2).2.
Proof.
  apply reachable_invariant. do 2 apply reachable_step. apply reachable_initial.
Defined.

End Page.

(** ** A pair and its reverse *)

Section Reverse.
Local Open Scope R_scope.

Lemma rem_360_lo (x : R) : 0 <= x < 360 → Num.rem (Fin x) (Fin 360) = Fin x.
Proof.
  intros Hx. rewrite rem_Fin by lra. f_equal.
  rewrite Rtrunc_nonneg by lra.
  rewrite <- (Int_part_spec (x / 360) 0); simpl; lra.
Qed.

Lemma rem_360_hi (x : R) : 360 <= x < 720 → Num.rem (Fin x) (Fin 360) = Fin (x - 360).
Proof.
  intros Hx. rewrite rem_Fin by lra. f_equal.
  rewrite Rtrunc_nonneg by lra.
  rewrite <- (Int_part_spec (x / 360) 1); simpl; lra.
Qed.

Lemma atan_pos (x : R) : 0 < x → 0 < atan x.
Proof. intros Hx. rewrite <- atan_0. apply atan_increasing, Hx. Qed.

Lemma atan_neg (x : R) : x < 0 → atan x < 0.
Proof. intros Hx. rewrite <- atan_0. apply atan_increasing, Hx. Qed.

Lemma div_pos_pos (b a : R) : 0 < a → 0 < b → 0 < b / a.
Proof. intros Ha Hb. apply Rmult_lt_0_compat; [lra | apply Rinv_0_lt_compat; lra]. Qed.

Lemma div_neg_neg (b a : R) : a < 0 → b < 0 → 0 < b / a.
Proof.
  intros Ha Hb. replace (b / a) with ((- b) / (- a)) by (field; lra).
  apply div_pos_pos; lra.
Qed.

Lemma div_neg_pos (b a : R) : a < 0 → 0 < b → b / a < 0.
Proof.
  intros Ha Hb. replace (b / a) with (- (b / (- a))) by (field; lra).
  pose proof (div_pos_pos b (- a)). lra.
Qed.

Lemma div_pos_neg (b a : R) : 0 < a → b < 0 → b / a < 0.
Proof.
  intros Ha Hb. replace (b / a) with (- ((- b) / a)) by (field; lra).
  pose proof (div_pos_pos (- b) a). lra.
Qed.

(** Turning a non-zero vector round moves its angle by half a turn. *)
Lemma atan2_reverse (b a : R) :
  ¬ (a = 0 ∧ b = 0) →
  ∃ t t', Num.atan2 (Fin b) (Fin a) = Fin t
          ∧ Num.atan2 (Fin (- b)) (Fin (- a)) = Fin t'
          ∧ - PI < t <= PI
          ∧ ((0 < t ∧ t' = t - PI) ∨ (t <= 0 ∧ t' = t + PI)).
Proof.
  intros Hne. pose proof PI_RGT_0 as Hpi.
  destruct (atan2_range b a) as (t & Et & Ht).
  exists t. revert Et. unfold Num.atan2.
  destruct (Rlt_dec 0 a) as [Ha|Ha].
  - intros [= <-].
    destruct (Rlt_dec 0 (- a)); [lra|]. destruct (Rlt_dec (- a) 0); [|lra].
    replace (- b / - a) with (b / a) by (field; lra).
    destruct (Rlt_dec (- b) 0) as [Hb|Hb].
    + eexists. split; [reflexivity|]. split; [reflexivity|]. split; [exact Ht|].
      left. split; [apply atan_pos, div_pos_pos; lra | reflexivity].
    + eexists. split; [reflexivity|]. split; [reflexivity|]. split; [exact Ht|].
      right. split; [|reflexivity].
      destruct (Req_dec_T b 0) as [->|Hb0].
      * replace (0 / a) with 0 by (field; lra). rewrite atan_0. lra.
      * left. apply atan_neg, div_pos_neg; lra.
  - destruct (Rlt_dec a 0) as [Ha'|Ha'].
    + destruct (Rlt_dec 0 (- a)); [|lra].
      replace (- b / - a) with (b / a) by (field; lra).
      destruct (Rlt_dec b 0) as [Hb|Hb]; intros [= <-].
      * eexists. split; [reflexivity|]. split; [reflexivity|]. split; [exact Ht|].
        right. pose proof (atan_bound (b / a)). split; lra.
      * eexists. split; [reflexivity|]. split; [reflexivity|]. split; [exact Ht|].
        left. pose proof (atan_bound (b / a)). split; lra.
    + assert (a = 0) by lra. subst a.
      destruct (Rlt_dec 0 (- 0)); [lra|]. destruct (Rlt_dec (- 0) 0); [lra|].
      destruct (Rlt_dec 0 b) as [Hb|Hb].
      * intros [= <-]. destruct (Rlt_dec 0 (- b)); [lra|].
        destruct (Rlt_dec (- b) 0); [|lra].
        eexists. split; [reflexivity|]. split; [reflexivity|]. split; [lra|].
        left. split; lra.
      * destruct (Rlt_dec b 0) as [Hb'|Hb'].
        -- intros [= <-]. destruct (Rlt_dec 0 (- b)); [|lra].
           eexists. split; [reflexivity|]. split; [reflexivity|]. split; [lra|].
           right. split; lra.
        -- exfalso. apply Hne. split; lra.
Qed.

Lemma bearing_of_atan2 (p1 p2 : R * R) (t : R) :
  Num.atan2 (Fin (p2.2 - p1.2)) (Fin (p2.1 - p1.1)) = Fin t →
  bearing (corner p1) (corner p2) = Num.rem (Fin (t * 180 / PI + 360)) (Fin 360).
Proof.
  intros Et. unfold bearing, corner. cbn [fst snd Num.sub Num.neg Num.add].
  change (p2.2 + - p1.2) with (p2.2 - p1.2).
  change (p2.1 + - p1.1) with (p2.1 - p1.1).
  rewrite Et. cbn [Num.mul]. rewrite div_PI. reflexivity.
Qed.

(** The bearings of a pair of distinct points and of its reverse are half
    a turn apart. *)
Lemma bearing_reverse (p1 p2 : R * R) :
  p1 ≠ p2 →
  ∃ B B', bearing (corner p1) (corner p2) = Fin B
          ∧ bearing (corner p2) (corner p1) = Fin B'
          ∧ 0 <= B < 360 ∧ 0 <= B' < 360
          ∧ (B' = B + 180 ∨ B' = B - 180).
Proof.
  intros Hne. pose proof PI_RGT_0 as Hpi.
  destruct (atan2_reverse (p2.2 - p1.2) (p2.1 - p1.1)) as (t & t' & Et & Et' & Ht & Hrev).
  { intros [H1 H2]. apply Hne. destruct p1, p2. cbn in *. f_equal; lra. }
  replace (- (p2.2 - p1.2)) with (p1.2 - p2.2) in Et' by ring.
  replace (- (p2.1 - p1.1)) with (p1.1 - p2.1) in Et' by ring.
  rewrite (bearing_of_atan2 p1 p2 t Et), (bearing_of_atan2 p2 p1 t' Et').
  assert (HT : 180 * (-1) <= t * 180 / PI <= 180) by (apply degrees_bound; lra).
  assert (HT0 : t * 180 / PI = 180 * (-1) → False).
  { intros E. assert (t = - PI); [|lra].
    replace t with (t * 180 / PI * PI / 180) by (field; lra). rewrite E. field. }
  destruct Hrev as [[Hpos ->]|[Hneg ->]].
  - assert (E' : (t - PI) * 180 / PI = t * 180 / PI - 180) by (field; lra).
    assert (HTp : 0 < t * 180 / PI).
    { replace (t * 180 / PI) with (t * (180 / PI)) by (field; lra).
      apply Rmult_lt_0_compat; [lra | apply div_pos_pos; lra]. }
    rewrite E'. set (T := t * 180 / PI) in *.
    rewrite (rem_360_hi (T + 360)) by lra.
    destruct (Req_dec_T T 180) as [E180|N180].
    + rewrite (rem_360_hi (T - 180 + 360)) by lra.
      eexists _, _. split; [reflexivity|]. split; [reflexivity|].
      split; [lra|]. split; [lra|]. right. lra.
    + rewrite (rem_360_lo (T - 180 + 360)) by lra.
      eexists _, _. split; [reflexivity|]. split; [reflexivity|].
      split; [lra|]. split; [lra|]. left. lra.
  - assert (E' : (t + PI) * 180 / PI = t * 180 / PI + 180) by (field; lra).
    assert (HTn : t * 180 / PI <= 0).
    { replace (t * 180 / PI) with (- ((- t) * (180 / PI))) by (field; lra).
      assert (0 <= - t * (180 / PI)); [|lra].
      apply Rmult_le_pos; [lra | left; apply div_pos_pos; lra]. }
    rewrite E'. set (T := t * 180 / PI) in *.
    rewrite (rem_360_hi (T + 180 + 360)) by lra.
    destruct (Req_dec_T T 0) as [E0|N0].
    + rewrite (rem_360_hi (T + 360)) by lra.
      eexists _, _. split; [reflexivity|]. split; [reflexivity|].
      split; [lra|]. split; [lra|]. left. lra.
    + rewrite (rem_360_lo (T + 360)) by lra.
      eexists _, _. split; [reflexivity|]. split; [reflexivity|].
      split; [lra|]. split; [lra|]. right. lra.
Qed.

(** Circular distances to two opposite directions add up to 180. *)
Lemma circular_opposite (B B' z : R) :
  0 <= B < 360 → 0 <= B' < 360 → 0 <= z < 360 →
  B' = B + 180 ∨ B' = B - 180 →
  Rmin (Rabs (B - z)) (360 - Rabs (B - z))
  + Rmin (Rabs (B' - z)) (360 - Rabs (B' - z)) = 180.
Proof.
  intros HB HB' Hz Hopp. unfold Rmin, Rabs.
  destruct (Rcase_abs (B - z)), (Rcase_abs (B' - z));
    repeat match goal with |- context [Rle_dec ?x ?y] => destruct (Rle_dec x y) end;
    destruct Hopp; lra.
Qed.

(** X10: for two distinct finite points and an adjusted azimuth in
    [[0, 360)], a pair that is lit is not lit when the way lists its two
    points in the other order: lighting depends on the direction in which
    the way is drawn. *)
Theorem reverse_pair_not_lit (p1 p2 : R * R) (z : R) :
  p1 ≠ p2 → 0 <= z < 360 →
  isLit (Fin z) (corner p1, corner p2) = true →
  isLit (Fin z) (corner p2, corner p1) = false.
Proof.
  intros Hne Hz Hlit.
  destruct (bearing_reverse p1 p2 Hne) as (B & B' & EB & EB' & HB & HB' & Hopp).
  pose proof (circular_opposite B B' z HB HB' Hz Hopp) as Hsum.
  apply (isLit_Fin z B _ _ EB) in Hlit.
  destruct (isLit (Fin z) (corner p2, corner p1)) eqn:Hrev; [|reflexivity].
  apply (isLit_Fin z B' _ _ EB') in Hrev. lra.
Qed.

Lemma reverse_pair_not_lit_witness :
  isLit (Fin 10) (corner (0 + 1, 0), corner (0, 0)) = false.
Proof.
  apply (reverse_pair_not_lit (0, 0) (0 + 1, 0) 10).
  - intros [= E]. lra.
  - lra.
  - apply (isLit_Fin 10 0); [apply bearing_north; lra|].
    assert (E : Rabs (0 - 10) = 10) by (unfold Rabs; destruct (Rcase_abs (0 - 10)); lra).
    rewrite E. unfold Rmin. destruct (Rle_dec 10 (360 - 10)); lra.
Defined.

End Reverse.

(** ** A sun position that is not a number *)

Section NaNSun.

Lemma sub_NaN (a : num) : Num.sub a NaN = NaN.
Proof. destruct a; reflexivity. Qed.

Lemma isLit_NaN (pq : (num * num) * (num * num)) : isLit NaN pq = false.
Proof. unfold isLit, minDiff. rewrite sub_NaN. reflexivity. Qed.

Lemma wayQuads_NaN (w : num) (way : Element) : wayQuads NaN w way = [].
Proof.
  unfold wayQuads. destruct (geometry way) as [geom|]; [|reflexivity].
  destruct (tags way) as [t|]; [|reflexivity].
  destruct (_ && _); [|reflexivity].
  induction (pairs _) as [|pq l IH]; [reflexivity|].
  cbn [List.filter]. rewrite isLit_NaN. exact IH.
Qed.

Lemma streetPolys_NaN (env : Env) (lat lon hour : num) (ways : list Element) :
  azimuth (sunAt env lat lon hour) = NaN →
  streetPolys env lat lon hour ways = [].
Proof.
  intros Haz. unfold streetPolys, azimuthDegOf. rewrite Haz.
  destruct (Num.le _ _); [reflexivity|]. cbn [Num.mul Num.div Num.add Num.rem].
  induction ways as [|way ways IH]; [reflexivity|].
  cbn [fmap list_fmap concat]. rewrite wayQuads_NaN. exact IH.
Qed.

(** X12: a sun position whose azimuth and altitude are [NaN] is not taken
    for a sun below the horizon: neither guard fires.  In a state of the
    script with readable way tags [updateScene] completes normally, lights
    no street, draws the footprint of every building of three points or
    more, and records for each of them a shadow whose length is [NaN]. *)
Theorem nan_sun_draws_buildings (env : Env) (lat lon hour : num) (s : State) :
  sunAt env lat lon hour = {| azimuth := NaN; altitude := NaN |} →
  wf s → Forall tagged (streetData s) →
  ∃ s', updateScene env lat lon hour s = (Normal tt, s')
        ∧ scene s' = footprintOf <$> List.filter drawable (buildingData s)
        ∧ ∃ vs, shadows s' = shadows s ++ vs
                ∧ length vs = length (List.filter drawable (buildingData s))
                ∧ Forall (λ v, shadowLen v = NaN) vs.
Proof.
  intros Hsun W Ht. eexists. split; [apply updateScene_run, Ht|]. split.
  - rewrite (updateScene_scene _ _ _ s W), streetPolys_NaN by (rewrite Hsun; reflexivity).
    unfold buildingPolys. rewrite Hsun. reflexivity.
  - eexists. split; [reflexivity|]. unfold buildingShadows. rewrite Hsun.
    cbn [altitude azimuth Num.le]. split; [apply length_fmap|].
    apply Forall_fmap, Forall_forall. intros b _. cbn.
    unfold shadowLength. cbn [Num.tan]. destruct (estimateHeight b); reflexivity.
Qed.

Lemma nan_sun_draws_buildings_witness :
  ∃ s', updateScene Polar.blind (Fin 48) (Fin 2) NaN Sample.town = (Normal tt, s')
        ∧ scene s' = footprintOf <$> List.filter drawable (buildingData Sample.town)
        ∧ ∃ vs, shadows s' = shadows Sample.town ++ vs
                ∧ length vs = length (List.filter drawable (buildingData Sample.town))
                ∧ Forall (λ v, shadowLen v = NaN) vs.
Proof.
  apply (nan_sun_draws_buildings Polar.blind (Fin 48) (Fin 2) NaN Sample.town).
  - reflexivity.
  - apply wf_loaded.
  - repeat constructor. intros _. eexists. reflexivity.
Defined.

End NaNSun.

(** ** A pair too short for binary64 *)

Section ShortPair.
Local Open Scope R_scope.



End ShortPair.
